(** * wimlib-imagex: the [Wim] command adapter of [lib/index.js]

    A shallow embedding of the JavaScript class [Wim], which drives the
    external [wimlib-imagex] binary, and the properties of its argument
    construction, output clean-up and error reporting.

    - JavaScript primitive values are the inductive [JsVal]; objects used as
      records (the options, an update command) are finite maps from property
      names to values, held in a store so that a callee's writes are seen by
      the caller.
    - Strings are [string]: every character is a code unit below 256, which
      covers the ASCII flags and the 8-bit noise the clean-up removes.
    - The external process and the XML parser are parameters of the model. *)

From Stdlib Require Import ZArith Ascii String List.
From stdpp Require Import base strings gmap list pretty.

Local Open Scope string_scope.
Local Open Scope Z_scope.
Local Open Scope list_scope.

(** ** JavaScript values *)

Module Js.

(** The primitive values. Numbers are the integers a JavaScript number
    holds exactly (up to 2^53 in magnitude), which print in plain decimal;
    an image index is one of these. *)
Inductive JsVal : Type :=
  | JUndefined
  | JNull
  | JBool (b : bool)
  | JNum (n : Z)
  | JStr (s : string).

#[global] Instance JsVal_eq_dec : EqDecision JsVal.
Proof. solve_decision. Defined.

(** [ToBoolean]: what [if (v)] and [!v] test. *)
Definition truthy (v : JsVal) : bool :=
  match v with
  | JUndefined | JNull => false
  | JBool b => b
  | JNum n => negb (n =? 0)
  | JStr s => negb (String.eqb s "")
  end.

(** [ToString], as applied by a template literal [`${v}`]. *)
Definition ToString (v : JsVal) : string :=
  match v with
  | JUndefined => "undefined"
  | JNull => "null"
  | JBool true => "true"
  | JBool false => "false"
  | JNum n => pretty n
  | JStr s => s
  end.

(** An object used as a record: property name to value. *)
Abbreviation obj := (gmap string JsVal).

(** [o.k]: a property that is not there reads as [undefined]. *)
Definition get (o : obj) (k : string) : JsVal := default JUndefined (o !! k).

(** An [Error] object: its [name], its [message] and its [code] property
    ([undefined] unless something set it). *)
Record JsError : Type := mkError {
  err_name : string;
  err_message : string;
  err_code : JsVal
}.

#[global] Instance JsError_eq_dec : EqDecision JsError.
Proof. solve_decision. Defined.

(** [new Error(msg)] *)
Definition Error (msg : string) : JsError := mkError "Error" msg JUndefined.

(** [Array.prototype.includes] with a string needle. *)
Definition includes (needle : JsVal) (args : list JsVal) : bool :=
  existsb (fun a => bool_decide (a = needle)) args.

(** [s.substring(n)]: the text from index [n] on, empty past the end. *)
Fixpoint substring_from (n : nat) (s : string) : string :=
  match n, s with
  | O, _ => s
  | S _, EmptyString => EmptyString
  | S n', String _ s' => substring_from n' s'
  end.

(** [s[i]]: [None] stands for [undefined]. *)
Definition char_at (i : nat) (s : string) : option ascii := String.get i s.

(** [chunks.join('')], the effect of [output += stdout] per chunk. *)
Definition concat_chunks (chunks : list string) : string :=
  fold_left String.append chunks "".

(** *** Regular expressions of one character

    [new RegExp(c, 'g')] for a pattern [c] of at most one character either
    fails with a [SyntaxError] or is one of three matchers. *)
Inductive RegExp1 : Type :=
  | REmpty               (* matches only the empty string: (?:), ^, $, | *)
  | RAny                 (* . : any character but a line terminator *)
  | RLit (c : ascii).    (* that character *)

(** Why V8 refuses a pattern of the one character [c]. *)
Definition regexp_syntax_reason (c : ascii) : string :=
  if Ascii.eqb c "(" then "Unterminated group"
  else if Ascii.eqb c ")" then "Unmatched ')'"
  else if Ascii.eqb c "[" then "Unterminated character class"
  else if Ascii.eqb c "\" then "\ at end of pattern"
  else "Nothing to repeat".

(** The [SyntaxError] of [new RegExp(c, 'g')], with the message of V8; it
    has no [code]. *)
Definition regexp_syntax_error (c : ascii) : JsError :=
  mkError "SyntaxError"
          ("Invalid regular expression: /" +:+ String c "/g: "
           +:+ regexp_syntax_reason c)
          JUndefined.

Definition is_syntax_error_char (c : ascii) : bool :=
  existsb (Ascii.eqb c) ["\"; "("; ")"; "["; "*"; "+"; "?"]%char.

Definition is_empty_match_char (c : ascii) : bool :=
  existsb (Ascii.eqb c) ["^"; "$"; "|"]%char.

(** [new RegExp(p, 'g')] where [p] is [s[i]]: [undefined] gives the empty
    pattern. *)
Definition new_RegExp (p : option ascii) : JsError + RegExp1 :=
  match p with
  | None => inr REmpty
  | Some c =>
      if is_syntax_error_char c then inl (regexp_syntax_error c)
      else if is_empty_match_char c then inr REmpty
      else if Ascii.eqb c "." then inr RAny
      else inr (RLit c)
  end.

(** A character that [new RegExp] takes literally. *)
Definition is_regexp_literal (c : ascii) : bool :=
  negb (is_syntax_error_char c) && negb (is_empty_match_char c)
  && negb (Ascii.eqb c ".").

(** The line terminators below 256: LF and CR. *)
Definition is_line_terminator (c : ascii) : bool :=
  Ascii.eqb c "010" || Ascii.eqb c "013".

(** Does the matcher consume character [c]? *)
Definition matches_char (re : RegExp1) (c : ascii) : bool :=
  match re with
  | REmpty => false
  | RAny => negb (is_line_terminator c)
  | RLit d => Ascii.eqb c d
  end.

(** [s.replace(re, '')] with the global flag: every match is deleted. *)
Fixpoint replace_all (re : RegExp1) (s : string) : string :=
  match s with
  | EmptyString => EmptyString
  | String c s' =>
      if matches_char re c then replace_all re s'
      else String c (replace_all re s')
  end.

(** Does character [c] occur in [s]? *)
Fixpoint occurs (c : ascii) (s : string) : bool :=
  match s with
  | EmptyString => false
  | String d s' => Ascii.eqb c d || occurs c s'
  end.

End Js.

(** ** The adapter *)

Module Wim.
Import Js.

(** The text encoding handed to the process library. *)
Inductive Encoding : Type := utf16le | utf8.

#[global] Instance Encoding_eq_dec : EqDecision Encoding.
Proof. solve_decision. Defined.

(** One call of [xProcess.spawn(bin, argv, {encoding}, next, onStdout)]. *)
Record SpawnCall : Type := mkCall {
  call_bin : string;
  call_argv : list JsVal;
  call_encoding : Encoding
}.

(** What the generator sees at its [yield], after the library handed
    [chunks] to the standard output callback.
    - [Completed]: the library calls [next] without an error; the process
      ended with status 0.
    - [Failed]: the [yield] throws the [Error] object [ex]; the process
      could not be spawned (a binary that is not found, an I/O failure).
    - [Threw]: the [yield] throws a text; the library calls [next] with the
      text [rc=<status>] when the process ends with a status other than 0.
    In both cases of a throw [catch (ex) { return ex; }] makes the thrown
    value the result. *)
Inductive SpawnOutcome : Type :=
  | Completed (chunks : list string)
  | Failed (chunks : list string) (ex : JsError)
  | Threw (chunks : list string) (text : string).

(** What [_spawn] returns: a text (the output, or a text that was thrown)
    or the [Error] object it caught. *)
Inductive OutVal : Type :=
  | OStr (s : string)
  | OErr (e : JsError).

(** [!out] is true for the empty string only: an object is truthy. *)
Definition out_truthy (out : OutVal) : bool :=
  match out with
  | OStr s => truthy (JStr s)
  | OErr _ => true
  end.

(** [out.code]: a string has no such property. *)
Definition out_code (out : OutVal) : JsVal :=
  match out with
  | OStr _ => JUndefined
  | OErr e => err_code e
  end.

(** References to objects in the store. *)
Abbreviation loc := nat (only parsing).

(** The store of records shared with the caller, and the calls made to the
    process library so far, oldest first. *)
Record World : Type := mkWorld {
  heap : gmap nat obj;
  spawned : list SpawnCall
}.

(** A call returns a value or throws. *)
Inductive Res (A : Type) : Type :=
  | Ret (a : A)
  | Throw (e : JsError).
Arguments Ret {A} a.
Arguments Throw {A} e.

(** Computations over the world that may throw. *)
Definition M (A : Type) : Type := World -> Res A * World.

Definition ret {A} (a : A) : M A := fun w => (Ret a, w).

Definition throw {A} (e : JsError) : M A := fun w => (Throw e, w).

Definition bind {A B} (m : M A) (k : A -> M B) : M B :=
  fun w =>
    match m w with
    | (Ret a, w') => k a w'
    | (Throw e, w') => (Throw e, w')
    end.

Notation "'let!' x ':=' m 'in' k" := (bind m (fun x => k))
  (at level 10, x pattern, m at level 100, k at level 200).
Notation "m ';;' k" := (bind m (fun _ => k))
  (at level 100, k at level 200, right associativity).

(** [when c m]: [if (c) { m }] *)
Definition when (c : bool) (m : M unit) : M unit := if c then m else ret tt.

(** The record a reference points to. *)
Definition deref (l : loc) : M obj :=
  fun w => (Ret (default ∅ (heap w !! l)), w).

(** [o.k] through a reference. *)
Definition read (l : loc) (k : string) : M JsVal :=
  let! o := deref l in ret (get o k).

(** [o.k = v] through a reference. *)
Definition write (l : loc) (k : string) (v : JsVal) : M unit :=
  fun w =>
    (Ret tt,
     mkWorld (<[l := <[k := v]> (default ∅ (heap w !! l))]> (heap w))
             (spawned w)).

(** [{}]: a new empty record. *)
Definition new_object : M loc :=
  fun w =>
    let l := fresh (dom (heap w)) in
    (Ret l, mkWorld (<[l := ∅]> (heap w)) (spawned w)).

(** [if (!options) options = {}], for an [options] argument that is a
    record or is left out ([undefined], [null]). *)
Definition options_or_new (options : option loc) : M loc :=
  match options with
  | Some l => ret l
  | None => new_object
  end.

(** The double quote character as a text. *)
Definition dquote : string := String "034"%char "".

(** An instance: the binary it runs. *)
Record Wim : Type := mkWim { _imagexBin : string }.

(** [constructor(imagexBin = null)] *)
Definition constructor (imagexBin : option string) : Wim :=
  mkWim (default "wimlib-imagex" imagexBin).

(** [args.push(x)] *)
Definition push (args : list string) (x : string) : list string :=
  args ++ [x].

(** [static _argsOptionsBuilder(options)] *)
Definition _argsOptionsBuilder (options : obj) : list string :=
  let args := [] in
  let args := if truthy (get options "destDir")
              then push args ("--dest-dir=" +:+ ToString (get options "destDir"))
              else args in
  let args := if truthy (get options "toStdout")
              then push args "--to-stdout" else args in
  let args := if truthy (get options "sourceList")
              then push args "--source-list" else args in
  let args := if truthy (get options "compress")
              then push args ("--compress=" +:+ ToString (get options "compress"))
              else args in
  let args := if truthy (get options "noAcls")
              then push args "--no-acls" else args in
  let args := if truthy (get options "unixData")
              then push args "--unix-data" else args in
  let args := if truthy (get options "rebuild")
              then push args "--rebuild" else args in
  let args := if truthy (get options "check")
              then push args "--check" else args in
  let args := if truthy (get options "noGlobs")
              then push args "--no-globs" else args in
  args.

(** The clean-up of [_spawn]:
    [output = output.substring(2);
     output = output.replace(new RegExp(output[1], 'g'), '')].
    The [SyntaxError] of [new RegExp] is thrown from here. *)
Definition cleanup (output : string) : JsError + string :=
  let output := substring_from 2 output in
  match new_RegExp (char_at 1 output) with
  | inl ex => inl ex
  | inr re => inr (replace_all re output)
  end.


Section Adapter.

(** [process.platform] *)
Variable platform : string.

(** The process library with the binary behind it. *)
Variable proc : SpawnCall -> SpawnOutcome.

(** [xml2js]: the parsed structure, and [parseStringPromise], which may
    reject. *)
Variable Parsed : Type.
Variable parseStringPromise : OutVal -> Res Parsed.

(** [const encoding = process.platform !== 'win32' && outputIsXml
                      ? 'utf16le' : 'utf8'] *)
Definition encoding_for (outputIsXml : bool) : Encoding :=
  if negb (String.eqb platform "win32") && outputIsXml then utf16le else utf8.

(** The call [_spawn] makes: [[action, ...args]] with the encoding chosen
    from [args]. *)
Definition the_call (this : Wim) (action : string) (args : list JsVal)
  : SpawnCall :=
  mkCall (_imagexBin this) (JStr action :: args)
         (encoding_for (includes (JStr "--xml") args)).

(** [yield this._xProcess.spawn(...)]: the call is recorded and the
    library answers. *)
Definition xspawn (call : SpawnCall) : World -> SpawnOutcome * World :=
  fun w => (proc call, mkWorld (heap w) (spawned w ++ [call])).

(** [*_spawn(action, ...args)]; [args] is the list without the trailing
    callback [next] that the wrapper appends and [args.pop()] removes (a
    function is never the string ['--xml']). Whatever is thrown inside the
    [try] is returned, not thrown. *)
Definition _spawn (this : Wim) (action : string) (args : list JsVal)
  : M OutVal :=
  let outputIsXml := includes (JStr "--xml") args in
  let encoding := encoding_for outputIsXml in
  fun w =>
    match xspawn (mkCall (_imagexBin this) (JStr action :: args) encoding) w with
    | (Completed chunks, w') =>
        let output := concat_chunks chunks in
        if bool_decide (encoding = utf8) && outputIsXml then
          match cleanup output with
          | inr output => (Ret (OStr output), w')
          | inl ex => (Ret (OErr ex), w')
          end
        else (Ret (OStr output), w')
    | (Failed _ ex, w') => (Ret (OErr ex), w')
    | (Threw _ text, w') => (Ret (OStr text), w')
    end.

(** [if (!options.image) options.image = 1] *)
Definition default_image (l : loc) : M unit :=
  let! image := read l "image" in
  when (negb (truthy image)) (write l "image" (JNum 1)).

(** [async capture(outputWim, source, options = {})] *)
Definition capture (this : Wim) (outputWim source : string)
    (options : option loc) : M unit :=
  let! options := options_or_new options in
  let! o := deref options in
  let args := _argsOptionsBuilder o in
  _spawn this "capture" ([JStr source; JStr outputWim] ++ map JStr args);;
  ret tt.

(** [async extract(inputWim, inputPath, outputDir, options = {})] *)
Definition extract (this : Wim) (inputWim inputPath : string)
    (outputDir : JsVal) (options : option loc) : M OutVal :=
  let! options := options_or_new options in
  default_image options;;
  when (truthy outputDir) (write options "destDir" outputDir);;
  let! o := deref options in
  let args := _argsOptionsBuilder o in
  _spawn this "extract"
         ([JStr inputWim; get o "image"; JStr inputPath] ++ map JStr args).

(** [async info(inputWim)] *)
Definition info (this : Wim) (inputWim : string) : M Parsed :=
  let! out := _spawn this "info" [JStr "--xml"; JStr inputWim] in
  if negb (out_truthy out) || truthy (out_code out) then
    throw (Error ("Cannot retrieve WIM metadata from " +:+ inputWim))
  else
    fun w => (parseStringPromise out, w).

(** The [switch (command.type)] of [update]: the three verbs, compared
    with [===]. *)
Definition is_update_verb (type : JsVal) : bool :=
  bool_decide (type = JStr "add") || bool_decide (type = JStr "delete")
  || bool_decide (type = JStr "rename").

(** [`${command.type} "${command.input}" "${command.output}"`] *)
Definition render_command (command : obj) : string :=
  ToString (get command "type") +:+ " " +:+
  dquote +:+ ToString (get command "input") +:+ dquote +:+ " " +:+
  dquote +:+ ToString (get command "output") +:+ dquote.

(** [async update(inputWim, command, options = {})]; [command] is a record
    or is missing. *)
Definition update (this : Wim) (inputWim : string) (command : option obj)
    (options : option loc) : M unit :=
  let! options := options_or_new options in
  default_image options;;
  match command with
  | None => throw (Error "A command must be specified")
  | Some c =>
      if is_update_verb (get c "type") then
        let command := render_command c in
        let! o := deref options in
        let args := _argsOptionsBuilder o in
        _spawn this "update"
               ([JStr inputWim; get o "image"; JStr command] ++ map JStr args);;
        ret tt
      else
        throw (Error ("command " +:+ ToString (get c "type") +:+ " not supported"))
  end.

(** [async verify(inputWim)] *)
Definition verify (this : Wim) (inputWim : string) : M unit :=
  let! out := _spawn this "verify" [JStr inputWim] in
  if truthy (out_code out) then
    throw (Error ("Integrity of " +:+ inputWim +:+ " file seems compromised"))
  else ret tt.

(** [async dir(inputWim)] *)
Definition dir (this : Wim) (inputWim : string) : M OutVal :=
  let! out := _spawn this "dir" [JStr inputWim] in
  if negb (out_truthy out) || truthy (out_code out) then
    throw (Error ("Cannot retrieve WIM directories and files from " +:+ inputWim))
  else ret out.

End Adapter.

End Wim.

(** ** The behaviour as the specification words it

    Second definitions, written from the prose, to be compared with the
    ones above. *)

Module Spec.
Import Js Wim.

(** The clean-up rule as worded: discard the first two characters, take the
    new first character as the noise marker and strip every occurrence of
    it. *)
Definition cleanup_as_specified (output : string) : string :=
  let output := substring_from 2 output in
  match char_at 0 output with
  | None => output
  | Some marker => replace_all (RLit marker) output
  end.

(** The fixed order of the flags: the option each one comes from and how it
    is written. *)
Definition flag_order : list (string * (JsVal -> string)) :=
  [ ("destDir", fun v => "--dest-dir=" +:+ ToString v);
    ("toStdout", fun _ => "--to-stdout");
    ("sourceList", fun _ => "--source-list");
    ("compress", fun v => "--compress=" +:+ ToString v);
    ("noAcls", fun _ => "--no-acls");
    ("unixData", fun _ => "--unix-data");
    ("rebuild", fun _ => "--rebuild");
    ("check", fun _ => "--check");
    ("noGlobs", fun _ => "--no-globs") ].

(** One flag per option that is set, in that order. *)
Definition flags_in_fixed_order (options : obj) : list string :=
  omap (fun '(k, render) =>
          if truthy (get options k) then Some (render (get options k))
          else None)
       flag_order.

(** The options that are set, in the fixed order. *)
Definition options_set (options : obj) : list string :=
  filter (fun k => truthy (get options k) = true) (flag_order.*1).

(** A record built by assigning fields one after the other. *)
Definition assign_all (fields : list (string * JsVal)) : obj :=
  fold_left (fun o kv => <[kv.1 := kv.2]> o) fields ∅.

(** The options record once the image index got its default:
    1 where it is unset or falsy. *)
Definition with_image_default (o : obj) : obj :=
  if truthy (get o "image") then o else <["image" := JNum 1]> o.

(** The options record [extract] works with: the image index defaulted,
    then an output directory that is given folded into [destDir]. *)
Definition extract_options (outputDir : JsVal) (o : obj) : obj :=
  if truthy outputDir
  then <["destDir" := outputDir]> (with_image_default o)
  else with_image_default o.

(** The arguments [extract] spawns with, after the action, for the record
    it works with. *)
Definition extract_args (inputWim inputPath : string) (o : obj)
  : list JsVal :=
  [JStr inputWim; get o "image"; JStr inputPath]
  ++ map JStr (_argsOptionsBuilder o).

(** The arguments [update] spawns with, after the action. *)
Definition update_args (inputWim : string) (c o : obj) : list JsVal :=
  [JStr inputWim; get o "image"; JStr (render_command c)]
  ++ map JStr (_argsOptionsBuilder o).

(** The options argument is left out or refers to a record of the store. *)
Definition valid_options (w : World) (options : option nat) : Prop :=
  match options with
  | None => True
  | Some l => is_Some (heap w !! l)
  end.

(** [`${verb} "${input}" "${output}"`], the instruction as worded. *)
Definition instruction (verb : string) (input output : JsVal) : string :=
  verb +:+ " " +:+ dquote +:+ ToString input +:+ dquote
       +:+ " " +:+ dquote +:+ ToString output +:+ dquote.

(** The three verbs of an update command. *)
Definition update_verbs : list JsVal :=
  [JStr "add"; JStr "delete"; JStr "rename"].

End Spec.

Import Js Wim Spec.

(** ** The earlier revision of the adapter

    The second source file holds the class as it was before [destDir],
    [toStdout] and [dir] came in: every output on Windows goes through the
    clean-up, and [extract] always passes a destination directory. *)

Module Legacy.

(** [static _argsOptionsBuilder(options)], seven flags. *)
Definition _argsOptionsBuilder (options : obj) : list string :=
  let args := [] in
  let args := if truthy (get options "sourceList")
              then push args "--source-list" else args in
  let args := if truthy (get options "compress")
              then push args ("--compress=" +:+ ToString (get options "compress"))
              else args in
  let args := if truthy (get options "noAcls")
              then push args "--no-acls" else args in
  let args := if truthy (get options "unixData")
              then push args "--unix-data" else args in
  let args := if truthy (get options "rebuild")
              then push args "--rebuild" else args in
  let args := if truthy (get options "check")
              then push args "--check" else args in
  let args := if truthy (get options "noGlobs")
              then push args "--no-globs" else args in
  args.

Section Adapter.

Variable platform : string.
Variable proc : SpawnCall -> SpawnOutcome.
Variable Parsed : Type.
Variable parseStringPromise : OutVal -> Res Parsed.

(** [const encoding = process.platform === 'win32' ? 'utf8' : 'utf16le'] *)
Definition encoding : Encoding :=
  if String.eqb platform "win32" then utf8 else utf16le.

(** [*_spawn(action, ...args)]: the clean-up runs whenever the encoding is
    ['utf8']. *)
Definition _spawn (this : Wim) (action : string) (args : list JsVal)
  : M OutVal :=
  fun w =>
    match xspawn proc (mkCall (_imagexBin this) (JStr action :: args) encoding)
                 w with
    | (Completed chunks, w') =>
        let output := concat_chunks chunks in
        if bool_decide (encoding = utf8) then
          match cleanup output with
          | inr output => (Ret (OStr output), w')
          | inl ex => (Ret (OErr ex), w')
          end
        else (Ret (OStr output), w')
    | (Failed _ ex, w') => (Ret (OErr ex), w')
    | (Threw _ text, w') => (Ret (OStr text), w')
    end.

(** [async capture(outputWim, source, options = {})] *)
Definition capture (this : Wim) (outputWim source : string)
    (options : option nat) : M unit :=
  let! options := options_or_new options in
  let! o := deref options in
  let args := _argsOptionsBuilder o in
  _spawn this "capture" ([JStr source; JStr outputWim] ++ map JStr args);;
  ret tt.

(** [async extract(inputWim, inputPath, outputDir, options = {})]: the
    destination is always passed, and nothing is returned. *)
Definition extract (this : Wim) (inputWim inputPath : string)
    (outputDir : JsVal) (options : option nat) : M unit :=
  let! options := options_or_new options in
  default_image options;;
  let! o := deref options in
  let args := _argsOptionsBuilder o in
  _spawn this "extract"
         ([JStr inputWim; get o "image"; JStr inputPath;
           JStr ("--dest-dir=" +:+ ToString outputDir)] ++ map JStr args);;
  ret tt.

(** [async info(inputWim)] *)
Definition info (this : Wim) (inputWim : string) : M Parsed :=
  let! out := _spawn this "info" [JStr "--xml"; JStr inputWim] in
  if negb (out_truthy out) || truthy (out_code out) then
    throw (Error ("Cannot retrieve WIM metadata from " +:+ inputWim))
  else
    fun w => (parseStringPromise out, w).

(** [async update(inputWim, command, options = {})] *)
Definition update (this : Wim) (inputWim : string) (command : option obj)
    (options : option nat) : M unit :=
  let! options := options_or_new options in
  default_image options;;
  match command with
  | None => throw (Error "A command must be specified")
  | Some c =>
      if is_update_verb (get c "type") then
        let command := render_command c in
        let! o := deref options in
        let args := _argsOptionsBuilder o in
        _spawn this "update"
               ([JStr inputWim; get o "image"; JStr command] ++ map JStr args);;
        ret tt
      else
        throw (Error ("command " +:+ ToString (get c "type") +:+ " not supported"))
  end.

(** [async verify(inputWim)] *)
Definition verify (this : Wim) (inputWim : string) : M unit :=
  let! out := _spawn this "verify" [JStr inputWim] in
  if truthy (out_code out) then
    throw (Error ("Integrity of " +:+ inputWim +:+ " file seems compromised"))
  else ret tt.

End Adapter.

End Legacy.

(** ** Shapes of input *)

(** A text with a NUL after each of its characters: ASCII text in UTF-16LE,
    seen one byte per character. *)
Fixpoint with_nuls (s : string) : string :=
  match s with
  | EmptyString => EmptyString
  | String c s' => String c (String "000"%char (with_nuls s'))
  end.

(** The characters of a text. *)
Definition chars (s : string) : list ascii := list_ascii_of_string s.

(** The names of the options that give a flag, in the fixed order. *)
Definition option_names : list string := flag_order.*1.

(** Every flag the record could give, set or not, in the fixed order. *)
Definition all_flags (options : obj) : list string :=
  map (fun kr => kr.2 (get options kr.1)) flag_order.

(** The flag a destination directory gives. *)
Definition dest_dir_flag (outputDir : JsVal) : string :=
  "--dest-dir=" +:+ ToString outputDir.

(** Between [w] and [w'] the binary of [this] was spawned once, for
    [action]. *)
Definition spawned_once (this : Wim) (action : string) (w w' : World)
  : Prop :=
  exists call,
    spawned w' = spawned w ++ [call]
    /\ call_bin call = _imagexBin this
    /\ head (call_argv call) = Some (JStr action).

(** The flags of the two options the earlier revision does not know. *)
Definition new_flags (options : obj) : list string :=
  (if truthy (get options "destDir")
   then [dest_dir_flag (get options "destDir")] else [])
  ++ (if truthy (get options "toStdout") then ["--to-stdout"] else []).

(** ** Sample inputs *)

(** The NUL character that follows every ASCII character of UTF-16LE text
    read as 8-bit text. *)
Definition nul : string := String "000"%char "".

(** A world with no record and no call yet. *)
Definition empty_world : World := mkWorld ∅ [].

(** A world whose only record, at reference 0, is [o]. *)
Definition world_of (o : obj) : World := mkWorld {[ 0%nat := o ]} [].

(** A process library that hands [chunks] to the standard output callback
    and then calls back without an error. *)
Definition completes (chunks : list string) : SpawnCall -> SpawnOutcome :=
  fun _ => Completed chunks.

(** The text the process library throws for an exit status other than 0. *)
Definition exit_text (status : Z) : string := "rc=" +:+ pretty status.

(** A process that ends with [status], other than 0, without output. *)
Definition exits_with (status : Z) : SpawnCall -> SpawnOutcome :=
  fun _ => Threw [] (exit_text status).

(** A process library that throws the [Error] object [ex]. *)
Definition fails_with (ex : JsError) : SpawnCall -> SpawnOutcome :=
  fun _ => Failed [] ex.

(** The error of a binary that is not found. *)
Definition enoent : JsError :=
  mkError "Error" "spawn wimlib-imagex ENOENT" (JStr "ENOENT").

(** A stand-in for the XML parser: it resolves with the text. *)
Definition parse_text (out : OutVal) : Res string :=
  match out with
  | OStr s => Ret s
  | OErr e => Throw e
  end.

(** ** Texts *)

Lemma new_RegExp_literal c :
  is_regexp_literal c = true -> new_RegExp (Some c) = inr (RLit c).
Proof.
  unfold is_regexp_literal, new_RegExp.
  destruct (is_syntax_error_char c); [discriminate|].
  destruct (is_empty_match_char c); [discriminate|].
  destruct (Ascii.eqb c "."); [discriminate|reflexivity].
Qed.

Lemma occurs_replace_all_lit c s : occurs c (replace_all (RLit c) s) = false.
Proof.
  induction s as [|d s IH]; [reflexivity|].
  simpl. destruct (Ascii.eqb d c) eqn:E; [exact IH|].
  simpl. rewrite IH, Bool.orb_false_r.
  rewrite Ascii.eqb_sym. exact E.
Qed.

Lemma length_replace_all re s :
  (String.length (replace_all re s) <= String.length s)%nat.
Proof.
  induction s as [|c s IH]; simpl; [lia|].
  destruct (matches_char re c); simpl; lia.
Qed.

Lemma length_substring_from n s :
  String.length (substring_from n s) = (String.length s - n)%nat.
Proof.
  revert s. induction n as [|n IH]; intros s.
  - simpl. lia.
  - destruct s as [|c s]; simpl; [reflexivity|apply IH].
Qed.

Lemma includes_In v args : includes v args = true <-> In v args.
Proof.
  unfold includes. rewrite existsb_exists. split.
  - intros (a & Ha & Heq). apply bool_decide_eq_true in Heq. now subst.
  - intros H. exists v. split; [exact H|]. now apply bool_decide_eq_true.
Qed.


(** ** [_spawn] *)

Section SpawnFacts.

Variable platform : string.
Variable proc : SpawnCall -> SpawnOutcome.

(** The clean-up runs on Windows for an XML request and nowhere else. *)
Lemma cleanup_gate args :
  bool_decide (encoding_for platform (includes (JStr "--xml") args) = utf8)
  && includes (JStr "--xml") args
  = String.eqb platform "win32" && includes (JStr "--xml") args.
Proof.
  unfold encoding_for.
  destruct (String.eqb platform "win32"), (includes _ args); reflexivity.
Qed.

Lemma _spawn_world this action args w :
  snd (_spawn platform proc this action args w)
  = mkWorld (heap w) (spawned w ++ [the_call platform this action args]).
Proof.
  unfold _spawn, xspawn, the_call. simpl.
  destruct (proc _) as [chunks|chunks ex|chunks text]; [|reflexivity..].
  destruct (_ && _); [|reflexivity].
  destruct (cleanup _); reflexivity.
Qed.

(** [_spawn] always returns: its [catch] turns every exception into a
    result. *)
Lemma _spawn_returns this action args w :
  exists out, fst (_spawn platform proc this action args w) = Ret out.
Proof.
  unfold _spawn, xspawn. simpl.
  destruct (proc _) as [chunks|chunks ex|chunks text]; [|eauto..].
  destruct (_ && _); [|eauto].
  destruct (cleanup _); eauto.
Qed.

Lemma _spawn_failed this action args w chunks ex :
  proc (the_call platform this action args) = Failed chunks ex ->
  fst (_spawn platform proc this action args w) = Ret (OErr ex).
Proof.
  unfold _spawn, xspawn, the_call. simpl. now intros ->.
Qed.

Lemma _spawn_eq this action args w :
  _spawn platform proc this action args w
  = (fst (_spawn platform proc this action args w),
     mkWorld (heap w) (spawned w ++ [the_call platform this action args])).
Proof. rewrite <- _spawn_world. now destruct (_spawn _ _ _ _ _ _). Qed.

(** The result of [_spawn] in every case. *)
Lemma _spawn_result this action args w :
  fst (_spawn platform proc this action args w)
  = Ret match proc (the_call platform this action args) with
        | Failed _ ex => OErr ex
        | Threw _ text => OStr text
        | Completed chunks =>
            if String.eqb platform "win32" && includes (JStr "--xml") args
            then match cleanup (concat_chunks chunks) with
                 | inr output => OStr output
                 | inl ex => OErr ex
                 end
            else OStr (concat_chunks chunks)
        end.
Proof.
  unfold _spawn, xspawn. simpl.
  fold (the_call platform this action args).
  destruct (proc _) as [chunks|chunks ex|chunks text]; [|reflexivity..].
  rewrite cleanup_gate.
  destruct (_ && _); [|reflexivity].
  destruct (cleanup _); reflexivity.
Qed.

(** The text result carries no [code]. *)
Lemma _spawn_completed_code this action args w chunks out :
  proc (the_call platform this action args) = Completed chunks ->
  fst (_spawn platform proc this action args w) = Ret out ->
  out_code out = JUndefined.
Proof.
  unfold _spawn, xspawn, the_call. simpl. intros ->.
  destruct (_ && _); [|now intros [= <-]].
  unfold cleanup.
  destruct (char_at 1 _) as [c|]; simpl; [|now intros [= <-]].
  destruct (is_syntax_error_char c); [now intros [= <-]|].
  destruct (is_empty_match_char c); [now intros [= <-]|].
  destruct (Ascii.eqb c "."); now intros [= <-].
Qed.

(** C2. For every invocation the encoding handed to the process library is
    UTF-16LE exactly when the platform is not ['win32'] and the arguments
    contain ['--xml']; in every other case it is UTF-8. *)
Theorem spawn_encoding_rule this action args w :
  exists call,
    spawned (snd (_spawn platform proc this action args w))
    = spawned w ++ [call]
    /\ call_argv call = JStr action :: args
    /\ (call_encoding call = utf16le
        <-> platform <> "win32" /\ In (JStr "--xml") args)
    /\ (call_encoding call = utf8
        <-> ~ (platform <> "win32" /\ In (JStr "--xml") args)).
Proof.
  exists (the_call platform this action args).
  rewrite _spawn_world. simpl.
  split; [reflexivity|]. split; [reflexivity|].
  unfold encoding_for. rewrite <- includes_In.
  destruct (String.eqb_spec platform "win32") as [Hp|Hp];
    destruct (includes (JStr "--xml") args); simpl;
    (split; split; [try discriminate; try tauto; intuition congruence ..]).
Qed.

End SpawnFacts.

(** ** The clean-up pass *)

Section CleanupFacts.

Variable platform : string.
Variable proc : SpawnCall -> SpawnOutcome.

(** C1, as the code has it. When 8-bit capture was chosen for an XML
    request and the process completed, the accumulated text loses its
    first two characters, and the character at index 1 of that shortened
    text (the fourth character captured) is made a regular expression:
    - where it is a pattern, the result is the shortened text without any
      match of that pattern;
    - where it is none, the result is the [SyntaxError] in place of the
      text;
    - where [new RegExp] takes it literally, the result is the shortened
      text without any occurrence of that character, and holds none. *)
Theorem spawn_cleanup_marker this action args chunks w :
  call_encoding (the_call platform this action args) = utf8 ->
  In (JStr "--xml") args ->
  proc (the_call platform this action args) = Completed chunks ->
  let shortened := substring_from 2 (concat_chunks chunks) in
  let result := fst (_spawn platform proc this action args w) in
  (forall re,
     new_RegExp (char_at 1 shortened) = inr re ->
     result = Ret (OStr (replace_all re shortened)))
  /\ (forall ex,
        new_RegExp (char_at 1 shortened) = inl ex ->
        result = Ret (OErr ex))
  /\ (forall c,
        char_at 1 shortened = Some c ->
        is_regexp_literal c = true ->
        result = Ret (OStr (replace_all (RLit c) shortened))
        /\ occurs c (replace_all (RLit c) shortened) = false).
Proof.
  intros Henc Hxml Hproc shortened result.
  apply includes_In in Hxml.
  assert (result
          = Ret match new_RegExp (char_at 1 shortened) with
                | inr re => OStr (replace_all re shortened)
                | inl ex => OErr ex
                end) as Hresult.
  { subst result shortened. unfold _spawn, xspawn. simpl.
    fold (the_call platform this action args). rewrite Hproc.
    unfold the_call in Henc. simpl in Henc. rewrite Henc, Hxml.
    rewrite bool_decide_eq_true_2 by reflexivity. simpl.
    unfold cleanup. now destruct (new_RegExp _). }
  split; [|split].
  - intros re Hre. now rewrite Hresult, Hre.
  - intros ex Hex. now rewrite Hresult, Hex.
  - intros c Hc Hlit. split; [|apply occurs_replace_all_lit].
    now rewrite Hresult, Hc, (new_RegExp_literal _ Hlit).
Qed.


End CleanupFacts.

(** C1, as worded, fails: the marker is not the first character of the
    shortened text. With [N] as third character captured, [x] is removed
    and every [N] stays. And the marker is read as a pattern, not as a
    literal character: a dot deletes the whole line, a bar deletes
    nothing, an opening parenthesis gives a [SyntaxError] in place of the
    text. *)
Lemma cleanup_marker_counterexample :
  let run :=
    fst (_spawn "win32" (completes ["abNxNy"]) (constructor None)
                "info" [JStr "--xml"; JStr "a.wim"] empty_world) in
  run = Ret (OStr "NNy")
  /\ run <> Ret (OStr (cleanup_as_specified "abNxNy"))
  /\ occurs "N" "NNy" = true
  /\ cleanup "ab<.x.y" = inr ""
  /\ cleanup "ab<|x|y" = inr "<|x|y"
  /\ cleanup "ab<(x(y" = inl (regexp_syntax_error "(").
Proof. vm_compute. repeat split. discriminate. Qed.

Lemma spawn_cleanup_marker_witness :
  fst (_spawn "win32" (completes ["ab<"; nul +:+ "W" +:+ nul; ">" +:+ nul])
              (constructor None) "info" [JStr "--xml"; JStr "a.wim"]
              empty_world)
  = Ret (OStr "<W>")
  /\ occurs "000" "<W>" = false
  /\ fst (_spawn "win32" (completes ["ab<|x|y"]) (constructor None) "info"
                 [JStr "--xml"; JStr "a.wim"] empty_world)
     = Ret (OStr "<|x|y")
  /\ fst (_spawn "win32" (completes ["ab<(x(y"]) (constructor None) "info"
                 [JStr "--xml"; JStr "a.wim"] empty_world)
     = Ret (OErr (regexp_syntax_error "(")).
Proof.
  destruct (spawn_cleanup_marker "win32"
              (completes ["ab<"; nul +:+ "W" +:+ nul; ">" +:+ nul])
              (constructor None) "info" [JStr "--xml"; JStr "a.wim"]
              ["ab<"; nul +:+ "W" +:+ nul; ">" +:+ nul] empty_world
              eq_refl (or_introl eq_refl) eq_refl)
    as (_ & _ & Hliteral).
  destruct (spawn_cleanup_marker "win32" (completes ["ab<|x|y"])
              (constructor None) "info" [JStr "--xml"; JStr "a.wim"]
              ["ab<|x|y"] empty_world
              eq_refl (or_introl eq_refl) eq_refl)
    as (Hpattern & _ & _).
  destruct (spawn_cleanup_marker "win32" (completes ["ab<(x(y"])
              (constructor None) "info" [JStr "--xml"; JStr "a.wim"]
              ["ab<(x(y"] empty_world
              eq_refl (or_introl eq_refl) eq_refl)
    as (_ & Hnone & _).
  destruct (Hliteral "000"%char eq_refl eq_refl) as [Hresult Hclean].
  split; [exact Hresult|]. split; [exact Hclean|]. split.
  - apply (Hpattern REmpty). reflexivity.
  - apply Hnone. reflexivity.
Defined.



(** ** [_argsOptionsBuilder] *)

Lemma push_when (b : bool) (args : list string) (x : string) :
  (if b then push args x else args) = args ++ (if b then [x] else []).
Proof. destruct b; [reflexivity|]. now rewrite app_nil_r. Qed.

(** The builder is the table read in its order. *)
Lemma builder_fixed_order (options : obj) :
  _argsOptionsBuilder options = flags_in_fixed_order options.
Proof.
  unfold _argsOptionsBuilder, flags_in_fixed_order, flag_order.
  rewrite !push_when. cbn [omap list_omap].
  repeat match goal with
         | |- context [truthy ?v] => destruct (truthy v)
         end; reflexivity.
Qed.

Lemma builder_length (options : obj) :
  length (_argsOptionsBuilder options) = length (options_set options).
Proof.
  rewrite builder_fixed_order.
  unfold flags_in_fixed_order, options_set.
  induction flag_order as [|[k render] table IH]; [reflexivity|].
  cbn [omap list_omap fmap list_fmap fst].
  rewrite filter_cons.
  destruct (truthy (get options k)) eqn:E.
  - rewrite decide_True by reflexivity. simpl. now f_equal.
  - rewrite decide_False by discriminate. exact IH.
Qed.

(** Assigning fields one after the other builds the map of the fields. *)
Lemma assign_all_list_to_map (fields : list (string * JsVal)) :
  assign_all fields = list_to_map (reverse fields).
Proof.
  unfold assign_all.
  induction fields as [|[k v] fields IH] using rev_ind; [reflexivity|].
  rewrite fold_left_app, reverse_snoc. simpl. now rewrite IH.
Qed.

Lemma assign_all_permutation (fields1 fields2 : list (string * JsVal)) :
  NoDup (fields1.*1) -> fields1 ≡ₚ fields2 ->
  assign_all fields1 = assign_all fields2.
Proof.
  intros Hnd Hperm. rewrite !assign_all_list_to_map.
  apply list_to_map_proper.
  - now rewrite fmap_reverse, reverse_Permutation.
  - now rewrite !reverse_Permutation.
Qed.

(** C5. The builder returns, for every options record, one flag per option
    that is set (truthy), in the fixed order destination dir, stdout
    redirect, source-list, compression, no-acls, unix-data, rebuild, check,
    no-globs; an option that is absent or falsy gives no flag, so there
    are as many flags as options set; and two records whose fields were
    assigned in different orders give the same flags. *)
Theorem args_builder_fixed_order (options : obj)
    (fields1 fields2 : list (string * JsVal)) :
  _argsOptionsBuilder options = flags_in_fixed_order options
  /\ length (_argsOptionsBuilder options) = length (options_set options)
  /\ (NoDup (fields1.*1) -> fields1 ≡ₚ fields2 ->
      _argsOptionsBuilder (assign_all fields1)
      = _argsOptionsBuilder (assign_all fields2)).
Proof.
  split; [apply builder_fixed_order|].
  split; [apply builder_length|].
  intros Hnd Hperm. now rewrite (assign_all_permutation _ _ Hnd Hperm).
Qed.

Lemma args_builder_fixed_order_witness :
  _argsOptionsBuilder
    (assign_all [("check", JBool true); ("compress", JStr "fast");
                 ("noAcls", JBool false); ("destDir", JStr "/out")])
  = ["--dest-dir=/out"; "--compress=fast"; "--check"]
  /\ _argsOptionsBuilder
       (assign_all [("check", JBool true); ("compress", JStr "fast");
                    ("noAcls", JBool false); ("destDir", JStr "/out")])
     = _argsOptionsBuilder
         (assign_all [("destDir", JStr "/out"); ("noAcls", JBool false);
                      ("compress", JStr "fast"); ("check", JBool true)]).
Proof.
  split; [vm_compute; reflexivity|].
  apply (args_builder_fixed_order ∅
           [("check", JBool true); ("compress", JStr "fast");
            ("noAcls", JBool false); ("destDir", JStr "/out")]
           [("destDir", JStr "/out"); ("noAcls", JBool false);
            ("compress", JStr "fast"); ("check", JBool true)]).
  - apply (bool_decide_unpack _). vm_compute. exact I.
  - apply (Permutation_rev
             [("check", JBool true); ("compress", JStr "fast");
              ("noAcls", JBool false); ("destDir", JStr "/out")]).
Defined.

(** ** The options record in the store *)

#[local] Arguments _spawn : simpl never.

Lemma get_insert_eq (o : obj) k v : get (<[k := v]> o) k = v.
Proof. unfold get. now rewrite lookup_insert_eq. Qed.

Lemma get_insert_ne (o : obj) k k' v :
  k <> k' -> get (<[k := v]> o) k' = get o k'.
Proof. intros H. unfold get. now rewrite lookup_insert_ne. Qed.

Lemma with_image_default_image (o : obj) :
  truthy (get o "image") = false ->
  get (with_image_default o) "image" = JNum 1.
Proof.
  intros H. unfold with_image_default. rewrite H. apply get_insert_eq.
Qed.

Lemma extract_options_image outputDir (o : obj) :
  get (extract_options outputDir o) "image"
  = get (with_image_default o) "image".
Proof.
  unfold extract_options. destruct (truthy outputDir); [|reflexivity].
  now apply get_insert_ne.
Qed.

Lemma with_image_default_destDir (o : obj) v :
  with_image_default (<["destDir" := v]> o)
  = <["destDir" := v]> (with_image_default o).
Proof.
  unfold with_image_default. rewrite get_insert_ne by discriminate.
  destruct (truthy (get o "image")); [reflexivity|].
  now apply insert_insert_ne.
Qed.

(** [default_image] leaves the record with its image index defaulted. *)
Lemma default_image_run l (o : obj) w :
  heap w !! l = Some o ->
  default_image l w
  = (Ret tt, mkWorld (<[l := with_image_default o]> (heap w)) (spawned w)).
Proof.
  intros Hl. unfold default_image, bind, read, deref, ret, when, write.
  cbn. rewrite Hl. cbn. unfold with_image_default.
  destruct (truthy (get o "image")); cbn; [|now rewrite Hl].
  rewrite insert_id by exact Hl. now destruct w.
Qed.

Lemma is_update_verb_In type :
  is_update_verb type = true <-> In type update_verbs.
Proof.
  unfold is_update_verb, update_verbs. simpl.
  rewrite !Bool.orb_true_iff, !bool_decide_eq_true. intuition congruence.
Qed.

Section OperationFacts.

Variable platform : string.
Variable proc : SpawnCall -> SpawnOutcome.

Lemma extract_run this inputWim inputPath outputDir l (o : obj) w :
  heap w !! l = Some o ->
  extract platform proc this inputWim inputPath outputDir (Some l) w
  = _spawn platform proc this "extract"
      (extract_args inputWim inputPath (extract_options outputDir o))
      (mkWorld (<[l := extract_options outputDir o]> (heap w)) (spawned w)).
Proof.
  intros Hl. unfold extract, options_or_new.
  unfold bind at 1. unfold ret at 1.
  unfold bind at 1. rewrite (default_image_run _ _ _ Hl).
  unfold extract_options, when, bind, write, deref, ret.
  destruct (truthy outputDir); cbn.
  - rewrite lookup_insert_eq. cbn. rewrite lookup_insert_eq. cbn.
    now rewrite insert_insert_eq.
  - rewrite lookup_insert_eq. reflexivity.
Qed.

Lemma update_run this inputWim command l (o : obj) w :
  heap w !! l = Some o ->
  update platform proc this inputWim command (Some l) w
  = let w1 := mkWorld (<[l := with_image_default o]> (heap w)) (spawned w) in
    match command with
    | None => (Throw (Error "A command must be specified"), w1)
    | Some c =>
        if is_update_verb (get c "type") then
          (Ret tt,
           snd (_spawn platform proc this "update"
                       (update_args inputWim c (with_image_default o)) w1))
        else
          (Throw (Error ("command " +:+ ToString (get c "type")
                         +:+ " not supported")), w1)
    end.
Proof.
  intros Hl. unfold update, options_or_new.
  unfold bind at 1. unfold ret at 1.
  unfold bind at 1. rewrite (default_image_run _ _ _ Hl).
  destruct command as [c|]; [|reflexivity].
  destruct (is_update_verb (get c "type")); [|reflexivity].
  unfold bind, deref, ret. cbn. rewrite lookup_insert_eq. cbn.
  unfold update_args.
  match goal with
  | |- context [_spawn ?p ?q ?t ?a ?args ?w0] =>
      destruct (_spawn_returns p q t a args w0) as [out Hout];
      destruct (_spawn p q t a args w0) as [r w2]
  end.
  cbn in *. now subst r.
Qed.

(** [update] with the options left out works on a new record. *)
Lemma update_run_new this inputWim command w :
  update platform proc this inputWim command None w
  = update platform proc this inputWim command
           (Some (fresh (dom (heap w))))
           (mkWorld (<[fresh (dom (heap w)) := ∅]> (heap w)) (spawned w)).
Proof. reflexivity. Qed.

End OperationFacts.

(** ** [update] *)

Section UpdateFacts.

Variable platform : string.
Variable proc : SpawnCall -> SpawnOutcome.

(** Whatever the options argument is, [update] runs as on a record of the
    store, with the same calls made so far. *)
Lemma update_on_record this inputWim command options w :
  valid_options w options ->
  exists l (o : obj) w0,
    heap w0 !! l = Some o /\ spawned w0 = spawned w
    /\ update platform proc this inputWim command options w
       = update platform proc this inputWim command (Some l) w0.
Proof.
  destruct options as [l|]; simpl.
  - intros [o Ho]. exists l, o, w. auto.
  - intros _. rewrite update_run_new.
    exists (fresh (dom (heap w))), ∅,
      (mkWorld (<[fresh (dom (heap w)) := ∅]> (heap w)) (spawned w)).
    split; [apply lookup_insert_eq|]. split; reflexivity.
Qed.

(** C6. For a command whose type is ['add'], ['delete'] or ['rename'],
    [update] spawns the process once, with the instruction
    [<verb> "<input>" "<output>"] as the argument after the image index,
    and returns; for a command of any other type it throws
    [command <type> not supported], and for a missing command
    [A command must be specified], in both cases without spawning. *)
Theorem update_command_rendering this inputWim (c : obj) verb options w :
  valid_options w options ->
  (In verb ["add"; "delete"; "rename"] -> get c "type" = JStr verb ->
   exists o : obj,
     fst (update platform proc this inputWim (Some c) options w) = Ret tt
     /\ spawned (snd (update platform proc this inputWim (Some c) options w))
        = spawned w
          ++ [the_call platform this "update"
                ([JStr inputWim; get o "image";
                  JStr (instruction verb (get c "input") (get c "output"))]
                 ++ map JStr (_argsOptionsBuilder o))])
  /\ (~ In (get c "type") update_verbs ->
      fst (update platform proc this inputWim (Some c) options w)
      = Throw (Error ("command " +:+ ToString (get c "type")
                      +:+ " not supported"))
      /\ spawned (snd (update platform proc this inputWim (Some c) options w))
         = spawned w)
  /\ (fst (update platform proc this inputWim None options w)
      = Throw (Error "A command must be specified")
      /\ spawned (snd (update platform proc this inputWim None options w))
         = spawned w).
Proof.
  intros Hvalid. split; [|split].
  - intros Hverb Htype.
    destruct (update_on_record this inputWim (Some c) options w Hvalid)
      as (l & o & w0 & Hl & Hsp & ->).
    rewrite (update_run platform proc this inputWim (Some c) l o w0 Hl).
    cbv zeta.
    assert (is_update_verb (get c "type") = true) as ->.
    { apply is_update_verb_In. rewrite Htype. unfold update_verbs.
      simpl in *. intuition congruence. }
    exists (with_image_default o). split; [reflexivity|].
    cbn [snd]. rewrite _spawn_world. cbn [spawned]. rewrite Hsp.
    unfold update_args, render_command, instruction.
    rewrite Htype. reflexivity.
  - intros Hverb.
    destruct (update_on_record this inputWim (Some c) options w Hvalid)
      as (l & o & w0 & Hl & Hsp & ->).
    rewrite (update_run platform proc this inputWim (Some c) l o w0 Hl).
    cbv zeta.
    destruct (is_update_verb (get c "type")) eqn:E.
    + apply is_update_verb_In in E. contradiction.
    + split; [reflexivity|exact Hsp].
  - destruct (update_on_record this inputWim None options w Hvalid)
      as (l & o & w0 & Hl & Hsp & ->).
    rewrite (update_run platform proc this inputWim None l o w0 Hl).
    split; [reflexivity|exact Hsp].
Qed.

End UpdateFacts.

Lemma update_command_rendering_witness :
  (exists o : obj,
     fst (update "linux" (completes []) (constructor None) "a.wim"
            (Some (assign_all [("type", JStr "add"); ("input", JStr "a");
                               ("output", JStr "b")]))
            None empty_world)
     = Ret tt
     /\ spawned
          (snd (update "linux" (completes []) (constructor None)
                  "a.wim"
                  (Some (assign_all [("type", JStr "add"); ("input", JStr "a");
                                     ("output", JStr "b")]))
                  None empty_world))
        = spawned empty_world
          ++ [the_call "linux" (constructor None) "update"
                ([JStr "a.wim"; get o "image";
                  JStr (instruction "add" (JStr "a") (JStr "b"))]
                 ++ map JStr (_argsOptionsBuilder o))])
  /\ list_ascii_of_string (instruction "add" (JStr "a") (JStr "b"))
     = ["a"; "d"; "d"; " "; "034"; "a"; "034"; " "; "034"; "b"; "034"]%char
  /\ fst (update "linux" (completes []) (constructor None) "a.wim"
            (Some (assign_all [("type", JStr "move")])) None empty_world)
     = Throw (Error "command move not supported").
Proof.
  pose proof (update_command_rendering "linux" (completes [])
                (constructor None) "a.wim"
                (assign_all [("type", JStr "add"); ("input", JStr "a");
                             ("output", JStr "b")])
                "add" None empty_world I) as (Hadd & _ & _).
  pose proof (update_command_rendering "linux" (completes [])
                (constructor None) "a.wim"
                (assign_all [("type", JStr "move")])
                "add" None empty_world I) as (_ & Hother & _).
  split; [|split].
  - apply Hadd; [simpl; tauto|reflexivity].
  - reflexivity.
  - apply Hother. vm_compute. intuition discriminate.
Defined.

(** ** [extract] and the caller's record *)

Section ExtractFacts.

Variable platform : string.
Variable proc : SpawnCall -> SpawnOutcome.

(** An output directory passed as argument and one already in the record
    give [extract] the same record to work with. *)
Lemma extract_options_fold outputDir (o : obj) :
  truthy outputDir = true ->
  extract_options JUndefined (<["destDir" := outputDir]> o)
  = extract_options outputDir o.
Proof.
  intros H. unfold extract_options. rewrite H. simpl.
  apply with_image_default_destDir.
Qed.

(** C7. [extract] with a truthy [outputDir] argument and [extract] without
    it on a record whose [destDir] is that value spawn the process with the
    same argument vector (the same flags among it), give the same result
    and leave the same record; the image index in that vector is 1 when the
    record has none. This holds whatever [destDir] was before. *)
Theorem extract_outputDir_as_destDir this inputWim inputPath outputDir
    l1 l2 (o : obj) w1 w2 :
  truthy outputDir = true ->
  heap w1 !! l1 = Some o ->
  heap w2 !! l2 = Some (<["destDir" := outputDir]> o) ->
  let run1 :=
    extract platform proc this inputWim inputPath outputDir (Some l1) w1 in
  let run2 :=
    extract platform proc this inputWim inputPath JUndefined (Some l2) w2 in
  exists (o' : obj) (image : JsVal),
    let call :=
      the_call platform this "extract"
        ([JStr inputWim; image; JStr inputPath]
         ++ map JStr (_argsOptionsBuilder o')) in
    spawned (snd run1) = spawned w1 ++ [call]
    /\ spawned (snd run2) = spawned w2 ++ [call]
    /\ fst run1 = fst run2
    /\ heap (snd run1) !! l1 = Some o'
    /\ heap (snd run2) !! l2 = Some o'
    /\ get o' "destDir" = outputDir
    /\ image = get o' "image"
    /\ (truthy (get o "image") = false -> image = JNum 1).
Proof.
  intros Hdir H1 H2 run1 run2. subst run1 run2.
  rewrite (extract_run platform proc this inputWim inputPath outputDir
             l1 o w1 H1).
  rewrite (extract_run platform proc this inputWim inputPath JUndefined
             l2 _ w2 H2).
  rewrite (extract_options_fold outputDir o Hdir).
  set (o' := extract_options outputDir o).
  exists o', (get o' "image"). cbv zeta.
  rewrite !_spawn_world. cbn [spawned heap].
  repeat split.
  - unfold _spawn, xspawn. cbn [fst snd heap spawned].
    fold (the_call platform this "extract"
            (extract_args inputWim inputPath o')).
    destruct (proc _) as [chunks|chunks ex|chunks text]; [|reflexivity..].
    destruct (_ && _); [|reflexivity].
    destruct (cleanup _); reflexivity.
  - apply lookup_insert_eq.
  - apply lookup_insert_eq.
  - subst o'. unfold extract_options. rewrite Hdir. apply get_insert_eq.
  - intros Himg. subst o'. rewrite extract_options_image.
    now apply with_image_default_image.
Qed.

(** C10. [extract] and [update] write into the record the caller passed:
    after [extract] it holds the [outputDir] argument (when one was given)
    as [destDir], and after either call an image index that was unset or
    falsy, an explicit 0 among them, is 1; the record then differs from
    what it was. [update] does so even when it throws for its command. *)
Theorem options_record_mutated this inputWim inputPath outputDir command
    l (o : obj) w :
  heap w !! l = Some o ->
  heap (snd (extract platform proc this inputWim inputPath outputDir
               (Some l) w)) !! l
  = Some (extract_options outputDir o)
  /\ heap (snd (update platform proc this inputWim command (Some l) w)) !! l
     = Some (with_image_default o)
  /\ (truthy outputDir = true ->
      get (extract_options outputDir o) "destDir" = outputDir)
  /\ (truthy (get o "image") = false ->
      get (extract_options outputDir o) "image" = JNum 1
      /\ get (with_image_default o) "image" = JNum 1
      /\ extract_options outputDir o <> o
      /\ with_image_default o <> o).
Proof.
  intros Hl. split; [|split; [|split]].
  - rewrite (extract_run platform proc this inputWim inputPath outputDir
               l o w Hl).
    rewrite _spawn_world. cbn [heap]. apply lookup_insert_eq.
  - rewrite (update_run platform proc this inputWim command l o w Hl).
    cbv zeta. destruct command as [c|]; [|apply lookup_insert_eq].
    destruct (is_update_verb (get c "type")); [|apply lookup_insert_eq].
    cbn [snd]. rewrite _spawn_world. apply lookup_insert_eq.
  - intros Hdir. unfold extract_options. rewrite Hdir. apply get_insert_eq.
  - intros Himg.
    assert (get (with_image_default o) "image" = JNum 1) as Hone
      by now apply with_image_default_image.
    assert (get (extract_options outputDir o) "image" = JNum 1) as Hone'
      by now rewrite extract_options_image.
    repeat split; [exact Hone'|exact Hone|..]; intros Heq.
    + rewrite Heq in Hone'. rewrite Hone' in Himg. discriminate.
    + rewrite Heq in Hone. rewrite Hone in Himg. discriminate.
Qed.

End ExtractFacts.

Lemma extract_outputDir_as_destDir_witness :
  fst (extract "linux" (completes ["done"]) (constructor None) "a.wim" "/"
         (JStr "/out") (Some 0%nat)
         (world_of (assign_all [("check", JBool true)])))
  = fst (extract "linux" (completes ["done"]) (constructor None) "a.wim" "/"
           JUndefined (Some 0%nat)
           (world_of (<["destDir" := JStr "/out"]>
                        (assign_all [("check", JBool true)]))))
  /\ spawned
       (snd (extract "linux" (completes ["done"]) (constructor None) "a.wim"
               "/" (JStr "/out") (Some 0%nat)
               (world_of (assign_all [("check", JBool true)]))))
     = spawned
         (snd (extract "linux" (completes ["done"]) (constructor None) "a.wim"
                 "/" JUndefined (Some 0%nat)
                 (world_of (<["destDir" := JStr "/out"]>
                              (assign_all [("check", JBool true)]))))).
Proof.
  destruct (extract_outputDir_as_destDir "linux" (completes ["done"])
              (constructor None) "a.wim" "/" (JStr "/out") 0%nat 0%nat
              (assign_all [("check", JBool true)])
              (world_of (assign_all [("check", JBool true)]))
              (world_of (<["destDir" := JStr "/out"]>
                           (assign_all [("check", JBool true)])))
              eq_refl eq_refl eq_refl)
    as (o' & image & Hcalls1 & Hcalls2 & Hres & _).
  split; [exact Hres|].
  rewrite Hcalls1, Hcalls2. reflexivity.
Defined.

Lemma options_record_mutated_witness :
  heap (snd (extract "linux" (completes []) (constructor None) "a.wim" "/"
               (JStr "/out") (Some 0%nat)
               (world_of (assign_all [("image", JNum 0)])))) !! 0%nat
  = Some (extract_options (JStr "/out") (assign_all [("image", JNum 0)]))
  /\ heap (snd (update "linux" (completes []) (constructor None) "a.wim" None
                  (Some 0%nat)
                  (world_of (assign_all [("image", JNum 0)])))) !! 0%nat
     = Some (with_image_default (assign_all [("image", JNum 0)]))
  /\ get (extract_options (JStr "/out") (assign_all [("image", JNum 0)]))
         "destDir" = JStr "/out"
  /\ get (extract_options (JStr "/out") (assign_all [("image", JNum 0)]))
         "image" = JNum 1
  /\ with_image_default (assign_all [("image", JNum 0)])
     <> assign_all [("image", JNum 0)].
Proof.
  destruct (options_record_mutated "linux" (completes []) (constructor None)
              "a.wim" "/" (JStr "/out") None 0%nat
              (assign_all [("image", JNum 0)])
              (world_of (assign_all [("image", JNum 0)])) eq_refl)
    as (Hextract & Hupdate & Hdir & Himage).
  destruct (Himage eq_refl) as (Hone & _ & _ & Hdiffers).
  split; [exact Hextract|]. split; [exact Hupdate|].
  split; [exact (Hdir eq_refl)|]. split; [exact Hone|exact Hdiffers].
Defined.

(** ** Failures *)

Section FailureFacts.

Variable platform : string.
Variable proc : SpawnCall -> SpawnOutcome.
Variable Parsed : Type.
Variable parseStringPromise : OutVal -> Res Parsed.

(** What follows [_spawn] runs on its result, with the call recorded. *)
Lemma bind_spawn {B} this action args (k : OutVal -> M B) w out :
  fst (_spawn platform proc this action args w) = Ret out ->
  bind (_spawn platform proc this action args) k w
  = k out (mkWorld (heap w) (spawned w ++ [the_call platform this action args])).
Proof.
  intros Hout. unfold bind. rewrite _spawn_eq, Hout. reflexivity.
Qed.


(** C4, as the code has it. A failure raised while the process is invoked
    is caught in [_spawn] and comes back as its result, the same error
    object, not thrown; [extract] hands that result to its caller as its
    return value. *)
Theorem spawn_failure_returned this action args inputWim inputPath outputDir
    l (o : obj) chunks ex w :
  (proc (the_call platform this action args) = Failed chunks ex ->
   fst (_spawn platform proc this action args w) = Ret (OErr ex))
  /\ (heap w !! l = Some o ->
      proc (the_call platform this "extract"
              (extract_args inputWim inputPath (extract_options outputDir o)))
      = Failed chunks ex ->
      fst (extract platform proc this inputWim inputPath outputDir (Some l) w)
      = Ret (OErr ex)).
Proof.
  split.
  - apply _spawn_failed.
  - intros Hl Hproc.
    rewrite (extract_run platform proc this inputWim inputPath outputDir
               l o w Hl).
    now apply _spawn_failed with (chunks := chunks).
Qed.


End FailureFacts.



(** C4, as worded, fails: the error of a binary that is not found never
    reaches the caller as a thrown exception. [verify] throws an error of
    its own in its place, and [capture] returns as if nothing happened. *)
Lemma spawn_failure_counterexample :
  fst (verify "linux" (fails_with enoent) (constructor None) "a.wim"
              empty_world)
  = Throw (Error "Integrity of a.wim file seems compromised")
  /\ fst (verify "linux" (fails_with enoent) (constructor None) "a.wim"
                 empty_world)
     <> Throw enoent
  /\ fst (capture "linux" (fails_with enoent) (constructor None) "out.wim"
                  "/src" None empty_world)
     = Ret tt.
Proof. vm_compute. repeat split. discriminate. Qed.

Lemma spawn_failure_returned_witness :
  fst (_spawn "linux" (fails_with enoent) (constructor None) "verify"
              [JStr "a.wim"] empty_world)
  = Ret (OErr enoent)
  /\ fst (extract "linux" (fails_with enoent) (constructor None) "a.wim" "/"
                  (JStr "/out") (Some 0%nat) (world_of ∅))
     = Ret (OErr enoent).
Proof.
  destruct (spawn_failure_returned "linux" (fails_with enoent)
              (constructor None) "verify" [JStr "a.wim"] "a.wim" "/"
              (JStr "/out") 0%nat ∅ [] enoent empty_world) as [Hspawn _].
  destruct (spawn_failure_returned "linux" (fails_with enoent)
              (constructor None) "verify" [JStr "a.wim"] "a.wim" "/"
              (JStr "/out") 0%nat ∅ [] enoent (world_of ∅)) as [_ Hextract].
  split.
  - apply Hspawn. reflexivity.
  - apply Hextract; reflexivity.
Defined.



(** ** More on the clean-up pass *)

Lemma get_substring_from n i s :
  String.get i (substring_from n s) = String.get (n + i) s.
Proof.
  revert s. induction n as [|n IH]; intros s; [reflexivity|].
  destruct s as [|c s]; simpl; [now destruct i|apply IH].
Qed.

Lemma chars_substring_from n s :
  chars (substring_from n s) = drop n (chars s).
Proof.
  revert s. induction n as [|n IH]; intros s; [reflexivity|].
  destruct s as [|c s]; simpl; [reflexivity|apply IH].
Qed.

Lemma replace_all_sublist re s :
  chars (replace_all re s) `sublist_of` chars s.
Proof.
  induction s as [|c s IH]; simpl; [constructor|].
  destruct (matches_char re c); simpl.
  - now apply sublist_cons.
  - now apply sublist_skip.
Qed.




Section CleanupMore.

Variable platform : string.
Variable proc : SpawnCall -> SpawnOutcome.


End CleanupMore.


(** X2. A buffer of at most three characters has no character at index 1
    once its first two are gone: the pattern is empty and the clean-up
    only drops the first two characters. *)
Theorem cleanup_short_buffer s :
  (String.length s <= 3)%nat -> cleanup s = inr (substring_from 2 s).
Proof.
  intros Hlen.
  destruct s as [|c1 [|c2 [|c3 [|c4 s]]]]; try reflexivity.
  simpl in Hlen. lia.
Qed.

Lemma cleanup_short_buffer_witness : cleanup "ab<" = inr "<".
Proof. apply (cleanup_short_buffer "ab<"). simpl. lia. Defined.

(** X3. The clean-up fails exactly when the fourth character captured is
    one of the seven characters that are no pattern on their own
    (backslash, the parentheses, the opening bracket, star, plus, question
    mark); the failure is the [SyntaxError] of [new RegExp]. *)
Theorem cleanup_syntax_error_iff s ex :
  cleanup s = inl ex
  <-> exists c, char_at 3 s = Some c
                /\ is_syntax_error_char c = true
                /\ ex = regexp_syntax_error c.
Proof.
  unfold cleanup, char_at. rewrite get_substring_from. simpl.
  destruct (String.get 3 s) as [c|]; simpl.
  - destruct (is_syntax_error_char c) eqn:E.
    + split.
      * intros [= <-]. now exists c.
      * intros (c' & [= <-] & _ & ->). reflexivity.
    + split.
      * destruct (is_empty_match_char c); [discriminate|].
        destruct (Ascii.eqb c "."); discriminate.
      * intros (c' & [= <-] & H & _). congruence.
  - split; [discriminate|]. intros (c & H & _). discriminate.
Qed.

(** X4. The clean-up only deletes: its result is a subsequence of the
    buffer without its first two characters, so it is at least two
    characters shorter than a buffer that has two. *)
Theorem cleanup_subsequence s t :
  cleanup s = inr t ->
  chars t `sublist_of` drop 2 (chars s)
  /\ (String.length t <= String.length s - 2)%nat.
Proof.
  unfold cleanup.
  destruct (new_RegExp _) as [ex|re]; [discriminate|].
  intros [= <-]. split.
  - rewrite <- chars_substring_from. apply replace_all_sublist.
  - rewrite <- length_substring_from. apply length_replace_all.
Qed.

Lemma cleanup_subsequence_witness :
  chars "NNy" `sublist_of` drop 2 (chars "abNxNy")
  /\ (String.length "NNy" <= String.length "abNxNy" - 2)%nat.
Proof. apply (cleanup_subsequence "abNxNy" "NNy"). reflexivity. Defined.

(** ** More on [_argsOptionsBuilder] *)

(** The flags are taken, in order, from the flags of all nine options. *)
Lemma builder_sublist (options : obj) :
  _argsOptionsBuilder options `sublist_of` all_flags options.
Proof.
  rewrite builder_fixed_order. unfold flags_in_fixed_order, all_flags.
  induction flag_order as [|[k render] table IH]; [constructor|].
  cbn [omap list_omap map fst snd].
  destruct (truthy (get options k)).
  - now apply sublist_skip.
  - now apply sublist_cons.
Qed.

Lemma all_flags_NoDup (options : obj) : NoDup (all_flags options).
Proof.
  unfold all_flags, flag_order. cbn [map fst snd].
  repeat (apply NoDup_cons; split;
          [rewrite ?not_elem_of_cons; repeat split;
           try apply not_elem_of_nil; cbn; discriminate|]).
  apply NoDup_nil_2.
Qed.

Lemma all_flags_shape (options : obj) f :
  f ∈ all_flags options -> String.prefix "--" f = true /\ f <> "--xml".
Proof.
  unfold all_flags, flag_order. cbn [map fst snd].
  rewrite !elem_of_cons, elem_of_nil.
  intros H; repeat destruct H as [->|H]; try contradiction;
    (split; [reflexivity|cbn; discriminate]).
Qed.

(** X5. The flags depend on the nine options only: two records that read
    the same at these nine names give the same flags, whatever else they
    hold (the image index, say). *)
Theorem builder_reads_nine_options (o1 o2 : obj) :
  (forall k, k ∈ option_names -> get o1 k = get o2 k) ->
  _argsOptionsBuilder o1 = _argsOptionsBuilder o2.
Proof.
  rewrite !builder_fixed_order.
  unfold flags_in_fixed_order, option_names.
  induction flag_order as [|[k render] table IH]; intros Hsame;
    [reflexivity|].
  cbn [omap list_omap].
  rewrite (Hsame k) by (cbn; apply list_elem_of_here).
  rewrite IH; [reflexivity|].
  intros k' Hk'. apply Hsame. cbn. now apply list_elem_of_further.
Qed.

Lemma builder_reads_nine_options_witness :
  _argsOptionsBuilder (assign_all [("check", JBool true)])
  = _argsOptionsBuilder
      (assign_all [("check", JBool true); ("image", JNum 3)]).
Proof.
  apply (builder_reads_nine_options
           (assign_all [("check", JBool true)])
           (assign_all [("check", JBool true); ("image", JNum 3)])).
  intros k Hk. unfold option_names, flag_order in Hk. cbn in Hk.
  rewrite !elem_of_cons, elem_of_nil in Hk.
  repeat destruct Hk as [->|Hk]; try contradiction; reflexivity.
Defined.

(** X6. No flag at all is given exactly when none of the nine options is
    set (truthy). *)
Theorem builder_empty_iff (options : obj) :
  _argsOptionsBuilder options = []
  <-> forall k, k ∈ option_names -> truthy (get options k) = false.
Proof.
  split.
  - intros Hnil k Hk.
    assert (options_set options = []) as Hset.
    { apply nil_length_inv. rewrite <- builder_length, Hnil. reflexivity. }
    destruct (truthy (get options k)) eqn:E; [|reflexivity].
    exfalso.
    apply (filter_nil_not_elem_of _ _ k Hset); [exact E|exact Hk].
  - intros Hnone.
    apply nil_length_inv. rewrite builder_length. unfold options_set.
    fold option_names.
    induction option_names as [|k names IH]; [reflexivity|].
    rewrite filter_cons, decide_False.
    + apply IH. intros k' Hk'. apply Hnone. now apply list_elem_of_further.
    + rewrite Hnone by apply list_elem_of_here. discriminate.
Qed.

(** X7. No flag is given twice, every flag starts with two dashes, and no
    flag the builder gives is ['--xml']. *)
Theorem builder_flags_distinct (options : obj) :
  NoDup (_argsOptionsBuilder options)
  /\ (forall f, f ∈ _argsOptionsBuilder options ->
                String.prefix "--" f = true /\ f <> "--xml").
Proof.
  split.
  - exact (sublist_NoDup _ _ (all_flags_NoDup options)
                         (builder_sublist options)).
  - intros f Hf. apply (all_flags_shape options).
    exact (elem_of_sublist _ _ _ Hf (builder_sublist options)).
Qed.

Lemma builder_flags_distinct_witness :
  String.prefix "--" "--check" = true /\ "--check" <> "--xml".
Proof.
  apply (builder_flags_distinct (assign_all [("check", JBool true)])).
  vm_compute. apply list_elem_of_here.
Defined.

(** ** More on the operations *)

Lemma append_nil_r s : s +:+ "" = s.
Proof.
  induction s as [|a s IH]; [reflexivity|].
  change (String a (s +:+ "") = String a s). now f_equal.
Qed.

Lemma append_assoc s1 s2 s3 : (s1 +:+ s2) +:+ s3 = s1 +:+ (s2 +:+ s3).
Proof.
  induction s1 as [|a s1 IH]; [reflexivity|].
  change (String a ((s1 +:+ s2) +:+ s3) = String a (s1 +:+ (s2 +:+ s3))).
  now f_equal.
Qed.

Lemma concat_chunks_from acc chunks :
  fold_left String.append chunks acc = acc +:+ concat_chunks chunks.
Proof.
  unfold concat_chunks. revert acc.
  induction chunks as [|c chunks IH]; intros acc; cbn [fold_left].
  - now rewrite append_nil_r.
  - rewrite IH, (IH ("" +:+ c)).
    change ("" +:+ c) with c. apply append_assoc.
Qed.

Lemma concat_chunks_app l1 l2 :
  concat_chunks (l1 ++ l2) = concat_chunks l1 +:+ concat_chunks l2.
Proof.
  unfold concat_chunks at 1. rewrite fold_left_app.
  fold (concat_chunks l1). apply concat_chunks_from.
Qed.

Lemma with_image_default_idem (o : obj) :
  with_image_default (with_image_default o) = with_image_default o.
Proof.
  unfold with_image_default at 1.
  destruct (truthy (get (with_image_default o) "image")) eqn:E;
    [reflexivity|].
  unfold with_image_default in E.
  destruct (truthy (get o "image")) eqn:E'; [congruence|].
  now rewrite get_insert_eq in E.
Qed.

Lemma extract_options_idem outputDir (o : obj) :
  extract_options outputDir (extract_options outputDir o)
  = extract_options outputDir o.
Proof.
  unfold extract_options. destruct (truthy outputDir).
  - rewrite with_image_default_destDir, with_image_default_idem.
    apply insert_insert_eq.
  - apply with_image_default_idem.
Qed.

Lemma with_image_default_extract_options outputDir (o : obj) :
  with_image_default (extract_options outputDir o)
  = extract_options outputDir o.
Proof.
  unfold extract_options. destruct (truthy outputDir).
  - now rewrite with_image_default_destDir, with_image_default_idem.
  - apply with_image_default_idem.
Qed.

(** A destination directory that is set gives the first flag. *)
Lemma builder_destDir_first (o : obj) :
  truthy (get o "destDir") = true ->
  exists rest,
    _argsOptionsBuilder o = dest_dir_flag (get o "destDir") :: rest.
Proof.
  intros H. rewrite builder_fixed_order.
  unfold flags_in_fixed_order, flag_order. cbn [omap list_omap].
  rewrite H. eauto.
Qed.

Lemma not_includes_flags (flags : list string) :
  (forall f, f ∈ flags -> f <> "--xml") ->
  includes (JStr "--xml") (map JStr flags) = false.
Proof.
  induction flags as [|f flags IH]; intros Hall; [reflexivity|].
  simpl. rewrite bool_decide_eq_false_2.
  - apply IH. intros g Hg. apply Hall. now apply list_elem_of_further.
  - intros [= ->].
    apply (Hall "--xml"); [apply list_elem_of_here|reflexivity].
Qed.

Section OperationsMore.

Variable platform : string.
Variable proc : SpawnCall -> SpawnOutcome.
Variable Parsed : Type.
Variable parseStringPromise : OutVal -> Res Parsed.

Lemma capture_run this outputWim source l (o : obj) w :
  heap w !! l = Some o ->
  capture platform proc this outputWim source (Some l) w
  = (Ret tt,
     mkWorld (heap w)
       (spawned w
        ++ [the_call platform this "capture"
              ([JStr source; JStr outputWim]
               ++ map JStr (_argsOptionsBuilder o))])).
Proof.
  intros Hl. unfold capture, options_or_new.
  unfold bind at 1. unfold ret at 1.
  unfold bind at 1. unfold deref at 1. rewrite Hl. cbn [default].
  destruct (_spawn_returns platform proc this "capture"
              ([JStr source; JStr outputWim]
               ++ map JStr (_argsOptionsBuilder o)) w) as [out Hout].
  rewrite (bind_spawn _ _ _ _ _ _ _ _ Hout). reflexivity.
Qed.

(** With the options left out the operations work on a new record. *)
Lemma capture_run_new this outputWim source w :
  capture platform proc this outputWim source None w
  = capture platform proc this outputWim source
      (Some (fresh (dom (heap w))))
      (mkWorld (<[fresh (dom (heap w)) := ∅]> (heap w)) (spawned w)).
Proof. reflexivity. Qed.

Lemma extract_run_new this inputWim inputPath outputDir w :
  extract platform proc this inputWim inputPath outputDir None w
  = extract platform proc this inputWim inputPath outputDir
      (Some (fresh (dom (heap w))))
      (mkWorld (<[fresh (dom (heap w)) := ∅]> (heap w)) (spawned w)).
Proof. reflexivity. Qed.

(** A record made for the call takes a place no record had. *)
Lemma fresh_record_frame w l (o : obj) (o0 : obj) :
  heap w !! l = Some o ->
  <[fresh (dom (heap w)) := o0]> (heap w) !! l = Some o.
Proof.
  intros Hl. rewrite lookup_insert_ne; [exact Hl|].
  intros Heq. pose proof (is_fresh (dom (heap w))) as Hfresh.
  rewrite Heq in Hfresh. apply Hfresh, elem_of_dom. eauto.
Qed.

(** X8. How the text arrives does not matter: a chunk delivered in two
    pieces gives the same result as the chunk delivered whole. *)
Theorem spawn_chunking_irrelevant (proc' : SpawnCall -> SpawnOutcome)
    this action args before a b after w :
  proc (the_call platform this action args)
  = Completed (before ++ [a +:+ b] ++ after) ->
  proc' (the_call platform this action args)
  = Completed (before ++ [a; b] ++ after) ->
  fst (_spawn platform proc this action args w)
  = fst (_spawn platform proc' this action args w).
Proof.
  intros H1 H2. rewrite !_spawn_result, H1, H2.
  assert (concat_chunks (before ++ [a +:+ b] ++ after)
          = concat_chunks (before ++ [a; b] ++ after)) as ->;
    [|reflexivity].
  rewrite !concat_chunks_app. now do 2 f_equal.
Qed.

(** X9. [capture] never throws and never writes to a record of the
    caller: the store is as it was for every record it held. It spawns
    once, with the source before the output archive and then the flags of
    the options. *)
Theorem capture_frame this outputWim source options w :
  valid_options w options ->
  fst (capture platform proc this outputWim source options w) = Ret tt
  /\ (forall l (o : obj),
        heap w !! l = Some o ->
        heap (snd (capture platform proc this outputWim source options w))
        !! l = Some o)
  /\ exists o : obj,
       (forall l, options = Some l -> heap w !! l = Some o)
       /\ (options = None -> o = ∅)
       /\ spawned (snd (capture platform proc this outputWim source
                          options w))
          = spawned w
            ++ [the_call platform this "capture"
                  ([JStr source; JStr outputWim]
                   ++ map JStr (_argsOptionsBuilder o))].
Proof.
  destruct options as [l|]; simpl.
  - intros [o Ho]. rewrite (capture_run _ _ _ _ _ _ Ho). simpl.
    split; [reflexivity|]. split; [auto|].
    exists o. split; [now intros ? [= <-]|]. split; [discriminate|reflexivity].
  - intros _.
    assert (capture platform proc this outputWim source None w
            = capture platform proc this outputWim source
                (Some (fresh (dom (heap w))))
                (mkWorld (<[fresh (dom (heap w)) := ∅]> (heap w))
                         (spawned w))) as -> by reflexivity.
    rewrite (capture_run _ _ _ _ ∅) by apply lookup_insert_eq.
    simpl. split; [reflexivity|]. split.
    + intros l o Hl. now apply fresh_record_frame.
    + exists ∅. split; [discriminate|]. split; reflexivity.
Qed.

End OperationsMore.

Lemma spawn_chunking_irrelevant_witness :
  fst (_spawn "linux" (completes ["<WIM>"; "</WIM>"]) (constructor None)
              "dir" [JStr "a.wim"] empty_world)
  = fst (_spawn "linux" (completes ["<W"; "IM>"; "</WIM>"]) (constructor None)
                "dir" [JStr "a.wim"] empty_world).
Proof.
  apply (spawn_chunking_irrelevant "linux" (completes ["<WIM>"; "</WIM>"])
           (completes ["<W"; "IM>"; "</WIM>"]) (constructor None) "dir"
           [JStr "a.wim"] [] "<W" "IM>" ["</WIM>"] empty_world);
    reflexivity.
Defined.

Lemma capture_frame_witness :
  fst (capture "linux" (exits_with 1) (constructor None)
               "out.wim" "/src" (Some 0%nat)
               (world_of (assign_all [("check", JBool true)])))
  = Ret tt
  /\ heap (snd (capture "linux" (exits_with 1) (constructor None)
                  "out.wim" "/src" (Some 0%nat)
                  (world_of (assign_all [("check", JBool true)])))) !! 0%nat
     = Some (assign_all [("check", JBool true)]).
Proof.
  destruct (capture_frame "linux" (exits_with 1)
              (constructor None) "out.wim" "/src" (Some 0%nat)
              (world_of (assign_all [("check", JBool true)]))
              (ex_intro _ _ eq_refl)) as (Hret & Hframe & _).
  split; [exact Hret|]. apply Hframe. reflexivity.
Defined.

Lemma get_empty k : get ∅ k = JUndefined.
Proof. unfold get. now rewrite lookup_empty. Qed.

(** Reading a record given by its assignments. *)
Ltac read_record :=
  repeat first
    [ rewrite get_insert_eq
    | rewrite get_empty
    | match goal with
      | |- context [get (<[?k := ?v]> ?o) ?k'] =>
          rewrite (get_insert_ne o k k' v) by discriminate
      end ].

Lemma builder_image_only v :
  _argsOptionsBuilder (<["image" := v]> ∅) = [].
Proof. unfold _argsOptionsBuilder. read_record. reflexivity. Qed.

Lemma builder_destDir_image d v :
  truthy d = true ->
  _argsOptionsBuilder (<["destDir" := d]> (<["image" := v]> ∅))
  = [dest_dir_flag d].
Proof.
  intros Hd. unfold _argsOptionsBuilder. read_record. rewrite Hd.
  reflexivity.
Qed.

Section DefaultsAndReuse.

Variable platform : string.
Variable proc : SpawnCall -> SpawnOutcome.

(** X10. With the options left out, [extract] spawns
    [extract <inputWim> 1 <inputPath>], followed by [--dest-dir=<outputDir>]
    when an output directory is given and by nothing else, and [update]
    spawns [update <inputWim> 1 <instruction>]; the records of the store
    stay as they were. *)
Theorem omitted_options_defaults this inputWim inputPath outputDir
    (c : obj) w :
  spawned (snd (extract platform proc this inputWim inputPath outputDir
                  None w))
  = spawned w
    ++ [the_call platform this "extract"
          ([JStr inputWim; JNum 1; JStr inputPath]
           ++ (if truthy outputDir then [JStr (dest_dir_flag outputDir)]
               else []))]
  /\ (is_update_verb (get c "type") = true ->
      spawned (snd (update platform proc this inputWim (Some c) None w))
      = spawned w
        ++ [the_call platform this "update"
              [JStr inputWim; JNum 1; JStr (render_command c)]])
  /\ (forall l (o : obj),
        heap w !! l = Some o ->
        heap (snd (extract platform proc this inputWim inputPath outputDir
                     None w)) !! l = Some o
        /\ heap (snd (update platform proc this inputWim (Some c) None w))
           !! l = Some o).
Proof.
  assert (extract platform proc this inputWim inputPath outputDir None w
          = extract platform proc this inputWim inputPath outputDir
              (Some (fresh (dom (heap w))))
              (mkWorld (<[fresh (dom (heap w)) := ∅]> (heap w))
                       (spawned w))) as Hextract by reflexivity.
  rewrite Hextract, update_run_new.
  rewrite (extract_run platform proc this inputWim inputPath outputDir
             _ ∅) by apply lookup_insert_eq.
  rewrite (update_run platform proc this inputWim (Some c) _ ∅)
    by apply lookup_insert_eq.
  cbv zeta. rewrite _spawn_world. cbn [heap spawned].
  assert (with_image_default ∅ = <["image" := JNum 1]> ∅) as Hrec
    by reflexivity.
  split; [|split].
  - unfold extract_args, extract_options. rewrite Hrec.
    destruct (truthy outputDir) eqn:Hd.
    + rewrite (builder_destDir_image _ _ Hd). read_record. reflexivity.
    + rewrite builder_image_only. read_record. reflexivity.
  - intros ->. cbn [snd]. rewrite _spawn_world. cbn [spawned].
    unfold update_args. rewrite Hrec, builder_image_only. read_record.
    reflexivity.
  - intros l o Hl.
    assert (fresh (dom (heap w)) <> l) as Hne.
    { intros Heq. pose proof (is_fresh (dom (heap w))) as Hfresh.
      rewrite Heq in Hfresh. apply Hfresh, elem_of_dom. eauto. }
    split.
    + rewrite insert_insert_eq, lookup_insert_ne by exact Hne. exact Hl.
    + destruct (is_update_verb (get c "type")); cbn [snd heap];
        rewrite ?_spawn_world; cbn [heap];
        rewrite insert_insert_eq, lookup_insert_ne by exact Hne; exact Hl.
Qed.

(** X11. A second [extract] with the same arguments on the same record
    finds it as the first one left it: the record is not changed again
    and the same call is spawned. *)
Theorem extract_twice this inputWim inputPath outputDir l (o : obj) w :
  heap w !! l = Some o ->
  let w1 :=
    snd (extract platform proc this inputWim inputPath outputDir (Some l) w) in
  let w2 :=
    snd (extract platform proc this inputWim inputPath outputDir (Some l) w1) in
  heap w2 = heap w1
  /\ exists call, spawned w1 = spawned w ++ [call]
                  /\ spawned w2 = spawned w1 ++ [call].
Proof.
  intros Hl w1 w2. subst w2 w1.
  rewrite (extract_run platform proc this inputWim inputPath outputDir
             l o w Hl).
  rewrite _spawn_world.
  rewrite (extract_run platform proc this inputWim inputPath outputDir
             l (extract_options outputDir o))
    by apply lookup_insert_eq.
  rewrite _spawn_world, extract_options_idem. cbn [heap spawned].
  split; [apply insert_insert_eq|]. eauto.
Qed.

(** X12. A record that went through [extract] with an output directory
    keeps it: a later [update] with the same record passes
    [--dest-dir=<outputDir>] to the process. *)
Theorem extract_then_update_keeps_destDir this inputWim inputPath outputDir
    (c : obj) l (o : obj) w :
  heap w !! l = Some o ->
  truthy outputDir = true ->
  is_update_verb (get c "type") = true ->
  let w1 :=
    snd (extract platform proc this inputWim inputPath outputDir (Some l) w) in
  exists call,
    spawned (snd (update platform proc this inputWim (Some c) (Some l) w1))
    = spawned w1 ++ [call]
    /\ JStr (dest_dir_flag outputDir) ∈ call_argv call.
Proof.
  intros Hl Hd Hverb w1. subst w1.
  rewrite (extract_run platform proc this inputWim inputPath outputDir
             l o w Hl).
  rewrite _spawn_world.
  rewrite (update_run platform proc this inputWim (Some c) l
             (extract_options outputDir o))
    by apply lookup_insert_eq.
  cbv zeta. rewrite Hverb. cbn [snd]. rewrite _spawn_world.
  cbn [heap spawned]. eexists. split; [reflexivity|].
  unfold the_call. cbn [call_argv]. unfold update_args.
  rewrite with_image_default_extract_options.
  assert (get (extract_options outputDir o) "destDir" = outputDir) as Hget.
  { unfold extract_options. rewrite Hd. apply get_insert_eq. }
  destruct (builder_destDir_first (extract_options outputDir o))
    as [rest ->].
  - now rewrite Hget.
  - rewrite Hget. cbn [app map].
    do 4 apply list_elem_of_further. apply list_elem_of_here.
Qed.

End DefaultsAndReuse.

Lemma omitted_options_defaults_witness :
  spawned (snd (update "linux" (completes []) (constructor None) "a.wim"
                  (Some (assign_all [("type", JStr "delete");
                                     ("input", JStr "/old")]))
                  None (world_of (assign_all [("check", JBool true)]))))
  = [the_call "linux" (constructor None) "update"
       [JStr "a.wim"; JNum 1;
        JStr (render_command (assign_all [("type", JStr "delete");
                                          ("input", JStr "/old")]))]]
  /\ heap (snd (extract "linux" (completes []) (constructor None) "a.wim" "/"
                  (JStr "/out") None
                  (world_of (assign_all [("check", JBool true)])))) !! 0%nat
     = Some (assign_all [("check", JBool true)]).
Proof.
  destruct (omitted_options_defaults "linux" (completes [])
              (constructor None) "a.wim" "/" (JStr "/out")
              (assign_all [("type", JStr "delete"); ("input", JStr "/old")])
              (world_of (assign_all [("check", JBool true)])))
    as (_ & Hupdate & Hframe).
  split.
  - apply Hupdate. reflexivity.
  - apply (Hframe 0%nat). reflexivity.
Defined.

Lemma extract_twice_witness :
  heap (snd (extract "linux" (completes []) (constructor None) "a.wim" "/"
               (JStr "/out") (Some 0%nat)
               (snd (extract "linux" (completes []) (constructor None)
                       "a.wim" "/" (JStr "/out") (Some 0%nat)
                       (world_of (assign_all [("image", JNum 0)]))))))
  = heap (snd (extract "linux" (completes []) (constructor None) "a.wim" "/"
                 (JStr "/out") (Some 0%nat)
                 (world_of (assign_all [("image", JNum 0)])))).
Proof.
  apply (extract_twice "linux" (completes []) (constructor None) "a.wim" "/"
           (JStr "/out") 0%nat (assign_all [("image", JNum 0)])
           (world_of (assign_all [("image", JNum 0)]))).
  reflexivity.
Defined.

Lemma extract_then_update_keeps_destDir_witness :
  exists call,
    spawned
      (snd (update "linux" (completes []) (constructor None) "a.wim"
              (Some (assign_all [("type", JStr "add"); ("input", JStr "a");
                                 ("output", JStr "b")]))
              (Some 0%nat)
              (snd (extract "linux" (completes []) (constructor None)
                      "a.wim" "/" (JStr "/out") (Some 0%nat) (world_of ∅)))))
    = spawned (snd (extract "linux" (completes []) (constructor None)
                      "a.wim" "/" (JStr "/out") (Some 0%nat) (world_of ∅)))
      ++ [call]
    /\ JStr "--dest-dir=/out" ∈ call_argv call.
Proof.
  apply (extract_then_update_keeps_destDir "linux" (completes [])
           (constructor None) "a.wim" "/" (JStr "/out")
           (assign_all [("type", JStr "add"); ("input", JStr "a");
                        ("output", JStr "b")])
           0%nat ∅ (world_of ∅)); reflexivity.
Defined.

(** ** What the callers get back *)

Section Results.

Variable platform : string.
Variable proc : SpawnCall -> SpawnOutcome.
Variable Parsed : Type.
Variable parseStringPromise : OutVal -> Res Parsed.

Lemma the_call_shape this action args :
  call_bin (the_call platform this action args) = _imagexBin this
  /\ head (call_argv (the_call platform this action args))
     = Some (JStr action).
Proof. split; reflexivity. Qed.

Lemma spawned_once_spawn this action args w :
  spawned_once this action w
    (mkWorld (heap w) (spawned w ++ [the_call platform this action args])).
Proof.
  exists (the_call platform this action args).
  split; [reflexivity|apply the_call_shape].
Qed.

(** X13. Each of [capture], [extract], [info], [verify] and [dir] runs the
    binary of the instance exactly once, whatever the process answers, with
    its action as first argument; the binary is the one given to the
    constructor, ['wimlib-imagex'] when none was given. *)
Theorem one_spawn_per_operation this outputWim source inputWim inputPath
    outputDir options w :
  valid_options w options ->
  spawned_once this "capture" w
    (snd (capture platform proc this outputWim source options w))
  /\ spawned_once this "extract" w
       (snd (extract platform proc this inputWim inputPath outputDir
               options w))
  /\ spawned_once this "info" w
       (snd (info platform proc Parsed parseStringPromise this inputWim w))
  /\ spawned_once this "verify" w
       (snd (verify platform proc this inputWim w))
  /\ spawned_once this "dir" w (snd (dir platform proc this inputWim w))
  /\ _imagexBin (constructor None) = "wimlib-imagex"
  /\ (forall bin, _imagexBin (constructor (Some bin)) = bin).
Proof.
  intros Hvalid.
  split; [|split; [|split; [|split; [|split; [|split]]]]];
    try reflexivity.
  - destruct options as [l|].
    + destruct Hvalid as [o Ho].
      rewrite (capture_run platform proc this outputWim source l o w Ho).
      apply spawned_once_spawn.
    + rewrite capture_run_new, (capture_run _ _ _ _ _ _ ∅)
        by apply lookup_insert_eq.
      eexists. split; [reflexivity|apply the_call_shape].
  - destruct options as [l|].
    + destruct Hvalid as [o Ho].
      rewrite (extract_run platform proc this inputWim inputPath outputDir
                 l o w Ho), _spawn_world.
      eexists. split; [reflexivity|apply the_call_shape].
    + rewrite extract_run_new,
        (extract_run platform proc this inputWim inputPath outputDir _ ∅)
        by apply lookup_insert_eq.
      rewrite _spawn_world.
      eexists. split; [reflexivity|apply the_call_shape].
  - destruct (_spawn_returns platform proc this "info"
                [JStr "--xml"; JStr inputWim] w) as [out Hout].
    unfold info. rewrite (bind_spawn _ _ _ _ _ _ _ _ Hout).
    destruct (_ || _); cbn [snd throw]; apply spawned_once_spawn.
  - destruct (_spawn_returns platform proc this "verify"
                [JStr inputWim] w) as [out Hout].
    unfold verify. rewrite (bind_spawn _ _ _ _ _ _ _ _ Hout).
    destruct (truthy _); apply spawned_once_spawn.
  - destruct (_spawn_returns platform proc this "dir"
                [JStr inputWim] w) as [out Hout].
    unfold dir. rewrite (bind_spawn _ _ _ _ _ _ _ _ Hout).
    destruct (_ || _); apply spawned_once_spawn.
Qed.

End Results.

Lemma one_spawn_per_operation_witness :
  spawned_once (constructor (Some "/opt/wimlib-imagex")) "capture"
    empty_world
    (snd (capture "linux" (fails_with enoent)
            (constructor (Some "/opt/wimlib-imagex")) "out.wim" "/src" None
            empty_world)).
Proof.
  apply (one_spawn_per_operation "linux" (fails_with enoent) string
           parse_text (constructor (Some "/opt/wimlib-imagex"))
           "out.wim" "/src" "a.wim" "/" JUndefined None empty_world I).
Defined.

Lemma includes_app v l1 l2 :
  includes v (l1 ++ l2) = includes v l1 || includes v l2.
Proof. unfold includes. apply existsb_app. Qed.

Lemma with_image_default_not_xml (o : obj) :
  get o "image" <> JStr "--xml" ->
  get (with_image_default o) "image" <> JStr "--xml".
Proof.
  intros H. unfold with_image_default.
  destruct (truthy (get o "image")); [exact H|].
  rewrite get_insert_eq. discriminate.
Qed.

Section ResultsMore.

Variable platform : string.
Variable proc : SpawnCall -> SpawnOutcome.
Variable Parsed : Type.
Variable parseStringPromise : OutVal -> Res Parsed.

(** X14. When the process completes, [extract] returns the chunks the
    process library handed to the standard output callback, one after the
    other and with nothing taken out, on every platform, as long as no
    path and no image index is the text ['--xml']: the capture is then
    8-bit and the clean-up is not run. *)
Theorem extract_returns_output this inputWim inputPath outputDir l (o : obj)
    chunks w :
  heap w !! l = Some o ->
  inputWim <> "--xml" ->
  inputPath <> "--xml" ->
  get o "image" <> JStr "--xml" ->
  proc (the_call platform this "extract"
          (extract_args inputWim inputPath (extract_options outputDir o)))
  = Completed chunks ->
  fst (extract platform proc this inputWim inputPath outputDir (Some l) w)
  = Ret (OStr (concat_chunks chunks))
  /\ call_encoding
       (the_call platform this "extract"
          (extract_args inputWim inputPath (extract_options outputDir o)))
     = utf8.
Proof.
  intros Hl Hwim Hpath Himage Hproc.
  assert (includes (JStr "--xml")
            (extract_args inputWim inputPath (extract_options outputDir o))
          = false) as Hinc.
  { unfold extract_args. rewrite includes_app.
    rewrite not_includes_flags
      by (intros f Hf;
          exact (proj2 (all_flags_shape _ f
                          (elem_of_sublist _ _ _ Hf (builder_sublist _))))).
    rewrite Bool.orb_false_r. simpl.
    rewrite !bool_decide_eq_false_2; [reflexivity|congruence| |congruence].
    rewrite extract_options_image. now apply with_image_default_not_xml. }
  rewrite (extract_run platform proc this inputWim inputPath outputDir
             l o w Hl).
  rewrite _spawn_result, Hproc, Hinc, Bool.andb_false_r.
  split; [reflexivity|].
  unfold the_call, encoding_for. cbn [call_encoding].
  now rewrite Hinc, Bool.andb_false_r.
Qed.

(** X15. When the process completes, [dir], for a path other than the
    text ['--xml'], returns the chunks the process library handed to the
    standard output callback, one after the other and with nothing taken
    out, on every platform, and throws [Cannot retrieve WIM directories
    and files from <inputWim>] when they make up the empty text. *)
Theorem dir_returns_listing this inputWim chunks w :
  inputWim <> "--xml" ->
  proc (the_call platform this "dir" [JStr inputWim]) = Completed chunks ->
  (concat_chunks chunks <> "" ->
   fst (dir platform proc this inputWim w)
   = Ret (OStr (concat_chunks chunks)))
  /\ (concat_chunks chunks = "" ->
      fst (dir platform proc this inputWim w)
      = Throw (Error ("Cannot retrieve WIM directories and files from "
                      +:+ inputWim))).
Proof.
  intros Hwim Hproc.
  assert (fst (_spawn platform proc this "dir" [JStr inputWim] w)
          = Ret (OStr (concat_chunks chunks))) as Hout.
  { rewrite _spawn_result, Hproc. simpl.
    rewrite bool_decide_eq_false_2 by congruence.
    now rewrite Bool.andb_false_r. }
  unfold dir. rewrite (bind_spawn _ _ _ _ _ _ _ _ Hout).
  cbn [out_truthy out_code truthy]. rewrite Bool.orb_false_r.
  split.
  - intros Hne. apply String.eqb_neq in Hne. now rewrite Hne.
  - intros ->. reflexivity.
Qed.

(** X16. [verify] returns without an error in every case but one: the
    process library reported a failure whose [code] is truthy. A failure
    without a [code], or with code 0, passes as a success. *)
Theorem verify_passes_iff this inputWim w :
  fst (verify platform proc this inputWim w) = Ret tt
  <-> ~ (exists chunks ex,
           proc (the_call platform this "verify" [JStr inputWim])
           = Failed chunks ex
           /\ truthy (err_code ex) = true).
Proof.
  destruct (_spawn_returns platform proc this "verify" [JStr inputWim] w)
    as [out Hout].
  unfold verify. rewrite (bind_spawn _ _ _ _ _ _ _ _ Hout).
  destruct (proc (the_call platform this "verify" [JStr inputWim]))
    as [chunks|chunks ex|chunks text] eqn:Hproc.
  - rewrite (_spawn_completed_code _ _ _ _ _ _ _ _ Hproc Hout).
    split; [|reflexivity].
    intros _ (chunks' & ex & Hfail & _). discriminate.
  - rewrite _spawn_result, Hproc in Hout.
    injection Hout as <-. cbn [out_code].
    destruct (truthy (err_code ex)) eqn:Hcode.
    + split; [discriminate|].
      intros Hnot. exfalso. apply Hnot. eauto.
    + split; [|reflexivity].
      intros _ (chunks' & ex' & [= _ <-] & Hcode'). congruence.
  - rewrite _spawn_result, Hproc in Hout.
    injection Hout as <-.
    split; [|reflexivity].
    intros _ (chunks' & ex & Hfail & _). discriminate.
Qed.


End ResultsMore.

Lemma extract_returns_output_witness :
  fst (extract "win32" (completes ["line 1"; "line 2"]) (constructor None)
         "a.wim" "/etc/hosts" JUndefined (Some 0%nat)
         (world_of (assign_all [("toStdout", JBool true)])))
  = Ret (OStr "line 1line 2").
Proof.
  apply (extract_returns_output "win32" (completes ["line 1"; "line 2"])
           (constructor None) "a.wim" "/etc/hosts" JUndefined 0%nat
           (assign_all [("toStdout", JBool true)]) ["line 1"; "line 2"]
           (world_of (assign_all [("toStdout", JBool true)])));
    try reflexivity; discriminate.
Defined.

Lemma dir_returns_listing_witness :
  fst (dir "win32" (completes ["/"; "/etc"]) (constructor None) "a.wim"
           empty_world)
  = Ret (OStr "//etc")
  /\ fst (dir "linux" (completes []) (constructor None) "a.wim" empty_world)
     = Throw (Error "Cannot retrieve WIM directories and files from a.wim").
Proof.
  split.
  - apply (dir_returns_listing "win32" (completes ["/"; "/etc"])
             (constructor None) "a.wim" ["/"; "/etc"] empty_world);
      try reflexivity; discriminate.
  - apply (dir_returns_listing "linux" (completes []) (constructor None)
             "a.wim" [] empty_world); try reflexivity; discriminate.
Defined.


(** ** The earlier revision against the current one *)

Section LegacyFacts.

Variable platform : string.
Variable proc : SpawnCall -> SpawnOutcome.
Variable Parsed : Type.
Variable parseStringPromise : OutVal -> Res Parsed.

Lemma legacy_spawn_run this action args w :
  Legacy._spawn platform proc this action args w
  = (Ret match proc (mkCall (_imagexBin this) (JStr action :: args)
                            (Legacy.encoding platform)) with
         | Failed _ ex => OErr ex
         | Threw _ text => OStr text
         | Completed chunks =>
             if String.eqb platform "win32"
             then match cleanup (concat_chunks chunks) with
                  | inr output => OStr output
                  | inl ex => OErr ex
                  end
             else OStr (concat_chunks chunks)
         end,
     mkWorld (heap w)
       (spawned w ++ [mkCall (_imagexBin this) (JStr action :: args)
                             (Legacy.encoding platform)])).
Proof.
  unfold Legacy._spawn, xspawn, Legacy.encoding.
  destruct (proc _) as [chunks|chunks ex|chunks text]; [|reflexivity..].
  destruct (String.eqb platform "win32"); cbn; [|reflexivity].
  destruct (cleanup _); reflexivity.
Qed.

Lemma legacy_builder_ignores_destDir (o : obj) d :
  Legacy._argsOptionsBuilder (<["destDir" := d]> o)
  = Legacy._argsOptionsBuilder o.
Proof.
  unfold Legacy._argsOptionsBuilder.
  now rewrite !(get_insert_ne o "destDir") by discriminate.
Qed.

Lemma legacy_builder_image_default (o : obj) :
  Legacy._argsOptionsBuilder (with_image_default o)
  = Legacy._argsOptionsBuilder o.
Proof.
  unfold with_image_default. destruct (truthy (get o "image"));
    [reflexivity|].
  unfold Legacy._argsOptionsBuilder.
  now rewrite !(get_insert_ne o "image") by discriminate.
Qed.

Lemma builder_split (o : obj) :
  _argsOptionsBuilder o = new_flags o ++ Legacy._argsOptionsBuilder o.
Proof.
  unfold _argsOptionsBuilder, Legacy._argsOptionsBuilder, new_flags,
    dest_dir_flag.
  rewrite !push_when.
  destruct (truthy (get o "destDir")), (truthy (get o "toStdout"));
    cbn [app]; rewrite <- ?app_assoc; reflexivity.
Qed.

(** X18. The current builder gives the flags of the earlier one, with the
    flags of the two new options, destination directory and standard
    output, in front of them: a record that sets neither gets the same
    flags from both. *)
Theorem builder_extends_legacy (o : obj) :
  _argsOptionsBuilder o = new_flags o ++ Legacy._argsOptionsBuilder o
  /\ (truthy (get o "destDir") = false ->
      truthy (get o "toStdout") = false ->
      _argsOptionsBuilder o = Legacy._argsOptionsBuilder o).
Proof.
  split; [apply builder_split|].
  intros HdestDir Hstdout. rewrite builder_split. unfold new_flags.
  now rewrite HdestDir, Hstdout.
Qed.

(** X19. For every request with ['--xml'] among its arguments the earlier
    [_spawn] does what the current one does, call and result; so [info]
    is the same in both revisions. *)
Theorem legacy_agrees_on_xml this action args inputWim w :
  (In (JStr "--xml") args ->
   Legacy._spawn platform proc this action args w
   = _spawn platform proc this action args w)
  /\ Legacy.info platform proc Parsed parseStringPromise this inputWim w
     = info platform proc Parsed parseStringPromise this inputWim w.
Proof.
  assert (forall action args w,
            In (JStr "--xml") args ->
            Legacy._spawn platform proc this action args w
            = _spawn platform proc this action args w) as Hsame.
  { clear. intros action args w Hxml. apply includes_In in Hxml.
    rewrite legacy_spawn_run, (_spawn_eq platform proc), _spawn_result.
    unfold the_call, encoding_for, Legacy.encoding. rewrite Hxml.
    destruct (String.eqb platform "win32"); reflexivity. }
  split; [apply Hsame|].
  unfold Legacy.info, info, bind.
  rewrite Hsame by (simpl; tauto). reflexivity.
Qed.

(** X20. The earlier [extract] always passes a destination: its fifth
    argument is [--dest-dir=] followed by the output directory as a text,
    [--dest-dir=undefined] when none is given, and it leaves [destDir] out
    of the record. For an output directory that is given and a record that
    sets neither [destDir] nor [toStdout], both revisions spawn with the
    same argument vector. *)
Theorem legacy_extract_destination this inputWim inputPath outputDir
    l (o : obj) w :
  heap w !! l = Some o ->
  let argv :=
    [JStr "extract"; JStr inputWim; get (with_image_default o) "image";
     JStr inputPath; JStr (dest_dir_flag outputDir)]
    ++ map JStr (Legacy._argsOptionsBuilder o) in
  Legacy.extract platform proc this inputWim inputPath outputDir (Some l) w
  = (Ret tt,
     mkWorld (<[l := with_image_default o]> (heap w))
       (spawned w
        ++ [mkCall (_imagexBin this) argv (Legacy.encoding platform)]))
  /\ (truthy outputDir = true ->
      truthy (get o "destDir") = false ->
      truthy (get o "toStdout") = false ->
      call_argv
        (the_call platform this "extract"
           (extract_args inputWim inputPath (extract_options outputDir o)))
      = argv).
Proof.
  intros Hl argv. subst argv. split.
  - unfold Legacy.extract, options_or_new.
    unfold bind at 1. unfold ret at 1.
    unfold bind at 1. rewrite (default_image_run _ _ _ Hl).
    unfold bind at 1. unfold deref at 1. cbn [heap].
    rewrite lookup_insert_eq. cbn [default].
    unfold bind. rewrite legacy_spawn_run. unfold id.
    rewrite legacy_builder_image_default. reflexivity.
  - intros Hd HdestDir Hstdout.
    unfold the_call. cbn [call_argv]. unfold extract_args.
    rewrite extract_options_image. unfold extract_options. rewrite Hd.
    rewrite builder_split. unfold new_flags.
    rewrite get_insert_eq, Hd.
    rewrite (get_insert_ne _ "destDir" "toStdout") by discriminate.
    assert (get (with_image_default o) "toStdout" = get o "toStdout") as ->.
    { unfold with_image_default. destruct (truthy (get o "image"));
        [reflexivity|]. now apply get_insert_ne. }
    rewrite Hstdout, legacy_builder_ignores_destDir,
      legacy_builder_image_default.
    reflexivity.
Qed.

End LegacyFacts.

Lemma legacy_agrees_on_xml_witness :
  Legacy._spawn "win32" (completes ["ab"; with_nuls "<WIM/>"])
                (constructor None) "info" [JStr "--xml"; JStr "a.wim"]
                empty_world
  = _spawn "win32" (completes ["ab"; with_nuls "<WIM/>"])
           (constructor None) "info" [JStr "--xml"; JStr "a.wim"]
           empty_world.
Proof.
  apply (legacy_agrees_on_xml "win32" (completes ["ab"; with_nuls "<WIM/>"])
           string parse_text (constructor None) "info"
           [JStr "--xml"; JStr "a.wim"] "a.wim" empty_world).
  simpl. tauto.
Defined.

Lemma legacy_extract_destination_witness :
  spawned
    (snd (Legacy.extract "linux" (completes []) (constructor None) "a.wim"
            "/" JUndefined (Some 0%nat)
            (world_of (assign_all [("check", JBool true)]))))
  = [mkCall "wimlib-imagex"
       [JStr "extract"; JStr "a.wim"; JNum 1; JStr "/";
        JStr "--dest-dir=undefined"; JStr "--check"]
       utf16le]
  /\ call_argv
       (the_call "linux" (constructor None) "extract"
          (extract_args "a.wim" "/"
             (extract_options (JStr "/out")
                (assign_all [("check", JBool true)]))))
     = [JStr "extract"; JStr "a.wim"; JNum 1; JStr "/";
        JStr "--dest-dir=/out"; JStr "--check"].
Proof.
  destruct (legacy_extract_destination "linux" (completes [])
              (constructor None) "a.wim" "/" JUndefined 0%nat
              (assign_all [("check", JBool true)])
              (world_of (assign_all [("check", JBool true)])) eq_refl)
    as [Hrun _].
  destruct (legacy_extract_destination "linux" (completes [])
              (constructor None) "a.wim" "/" (JStr "/out") 0%nat
              (assign_all [("check", JBool true)])
              (world_of (assign_all [("check", JBool true)])) eq_refl)
    as [_ Hsame].
  split.
  - rewrite Hrun. reflexivity.
  - rewrite Hsame by reflexivity. reflexivity.
Defined.

(** ** Two more edges *)

Lemma builder_ignores_image (o : obj) v :
  _argsOptionsBuilder (<["image" := v]> o) = _argsOptionsBuilder o.
Proof.
  unfold _argsOptionsBuilder.
  now rewrite !(get_insert_ne o "image") by discriminate.
Qed.

Section Edges.

Variable platform : string.
Variable proc : SpawnCall -> SpawnOutcome.
Variable Parsed : Type.
Variable parseStringPromise : OutVal -> Res Parsed.

(** X21. [capture] does not look at the image index: two records that
    differ in [image] only make it spawn the same call. *)
Theorem capture_ignores_image this outputWim source l (o : obj) v w1 w2 :
  heap w1 !! l = Some o ->
  heap w2 !! l = Some (<["image" := v]> o) ->
  spawned w1 = spawned w2 ->
  spawned (snd (capture platform proc this outputWim source (Some l) w1))
  = spawned (snd (capture platform proc this outputWim source (Some l) w2)).
Proof.
  intros H1 H2 Hcalls.
  rewrite (capture_run platform proc this outputWim source l _ w1 H1).
  rewrite (capture_run platform proc this outputWim source l _ w2 H2).
  cbn [snd spawned]. now rewrite Hcalls, builder_ignores_image.
Qed.


End Edges.

Lemma capture_ignores_image_witness :
  spawned (snd (capture "linux" (completes []) (constructor None) "out.wim"
                  "/src" (Some 0%nat)
                  (world_of (assign_all [("check", JBool true)]))))
  = spawned (snd (capture "linux" (completes []) (constructor None)
                    "out.wim" "/src" (Some 0%nat)
                    (world_of (<["image" := JNum 2]>
                                 (assign_all [("check", JBool true)]))))).
Proof.
  apply (capture_ignores_image "linux" (completes []) (constructor None)
           "out.wim" "/src" 0%nat (assign_all [("check", JBool true)])
           (JNum 2)); reflexivity.
Defined.


Lemma cleanup_syntax_error_iff_witness :
  cleanup "ab<*?" = inl (regexp_syntax_error "*").
Proof.
  apply (cleanup_syntax_error_iff "ab<*?" (regexp_syntax_error "*")).
  exists "*"%char. repeat split; reflexivity.
Defined.

Lemma builder_empty_iff_witness :
  _argsOptionsBuilder
    (assign_all [("image", JNum 2); ("check", JBool false)]) = [].
Proof.
  apply (builder_empty_iff
           (assign_all [("image", JNum 2); ("check", JBool false)])).
  intros k Hk. unfold option_names, flag_order in Hk.
  cbn [fmap list_fmap fst] in Hk.
  rewrite !elem_of_cons, elem_of_nil in Hk.
  repeat destruct Hk as [->|Hk]; try contradiction; reflexivity.
Defined.

Lemma verify_passes_iff_witness :
  fst (verify "linux" (fails_with (Error "no code")) (constructor None)
              "a.wim" empty_world)
  = Ret tt.
Proof.
  apply (verify_passes_iff "linux" (fails_with (Error "no code"))
           (constructor None) "a.wim" empty_world).
  intros (chunks & ex & Hfail & Hcode).
  injection Hfail as _ <-. discriminate.
Defined.

Lemma builder_extends_legacy_witness :
  _argsOptionsBuilder
    (assign_all [("rebuild", JBool true); ("compress", JStr "fast")])
  = Legacy._argsOptionsBuilder
      (assign_all [("rebuild", JBool true); ("compress", JStr "fast")]).
Proof.
  apply (builder_extends_legacy
           (assign_all [("rebuild", JBool true); ("compress", JStr "fast")]));
    reflexivity.
Defined.

(** ** A text that is thrown *)

Section ThrownText.

Variable platform : string.
Variable proc : SpawnCall -> SpawnOutcome.

Lemma _spawn_threw this action args w chunks text :
  proc (the_call platform this action args) = Threw chunks text ->
  fst (_spawn platform proc this action args w) = Ret (OStr text).
Proof. intros Hproc. now rewrite _spawn_result, Hproc. Qed.

(** X23. A text thrown at the [yield], which is how the process library
    reports an exit status other than 0 ([rc=<status>]), is taken for
    output: [verify] returns without an error, [dir] returns the text as
    the listing and [extract] returns it as its result. *)
Theorem thrown_text_is_result this inputWim inputPath outputDir l (o : obj)
    chunks text w :
  text <> "" ->
  (proc (the_call platform this "verify" [JStr inputWim])
   = Threw chunks text ->
   fst (verify platform proc this inputWim w) = Ret tt)
  /\ (proc (the_call platform this "dir" [JStr inputWim])
      = Threw chunks text ->
      fst (dir platform proc this inputWim w) = Ret (OStr text))
  /\ (heap w !! l = Some o ->
      proc (the_call platform this "extract"
              (extract_args inputWim inputPath (extract_options outputDir o)))
      = Threw chunks text ->
      fst (extract platform proc this inputWim inputPath outputDir (Some l) w)
      = Ret (OStr text)).
Proof.
  intros Htext. split; [|split].
  - intros Hproc. unfold verify.
    rewrite (bind_spawn _ _ _ _ _ _ _ _ (_spawn_threw _ _ _ w _ _ Hproc)).
    reflexivity.
  - intros Hproc. unfold dir.
    rewrite (bind_spawn _ _ _ _ _ _ _ _ (_spawn_threw _ _ _ w _ _ Hproc)).
    cbn [out_truthy out_code truthy].
    apply String.eqb_neq in Htext. now rewrite Htext.
  - intros Hl Hproc.
    rewrite (extract_run platform proc this inputWim inputPath outputDir
               l o w Hl).
    now apply _spawn_threw with (chunks := chunks).
Qed.

End ThrownText.

Lemma thrown_text_is_result_witness :
  fst (verify "linux" (exits_with 2) (constructor None) "a.wim" empty_world)
  = Ret tt
  /\ fst (dir "linux" (exits_with 2) (constructor None) "a.wim" empty_world)
     = Ret (OStr "rc=2")
  /\ fst (extract "linux" (exits_with 2) (constructor None) "a.wim" "/"
                  JUndefined (Some 0%nat) (world_of ∅))
     = Ret (OStr "rc=2").
Proof.
  destruct (thrown_text_is_result "linux" (exits_with 2) (constructor None)
              "a.wim" "/" JUndefined 0%nat ∅ [] "rc=2" empty_world)
    as (Hverify & Hdir & _); [discriminate|].
  destruct (thrown_text_is_result "linux" (exits_with 2) (constructor None)
              "a.wim" "/" JUndefined 0%nat ∅ [] "rc=2" (world_of ∅))
    as (_ & _ & Hextract); [discriminate|].
  split; [apply Hverify; reflexivity|].
  split; [apply Hdir; reflexivity|].
  apply Hextract; reflexivity.
Defined.
